(** * The vanilla-extract Vite plugin: CSS registry, virtual modules and HMR

    A shallow embedding of [packages/vite-plugin/src/index.ts].  The plugin
    closure becomes a [State] record, each hook a function on it, and the
    calls the plugin makes on its host (module invalidation, websocket
    broadcast, watch registration) an explicit list of [Effect]s. *)

From Stdlib Require Import String Ascii ZArith Lia.
From stdpp Require Import gmap strings list.

Local Open Scope Z_scope.

(** ** JavaScript string primitives used by the plugin

    A JavaScript string is modelled as a [string]: a sequence of code units,
    compared by value.  Indices are [Z], as [indexOf] answers [-1] and
    [slice] accepts negative positions. *)
Module Js.

Definition length (s : string) : Z := Z.of_nat (String.length s).

(** [s.indexOf(search)]: position of the first occurrence, [-1] if none. *)
Definition indexOf (s search : string) : Z :=
  match String.index 0 search s with
  | Some n => Z.of_nat n
  | None => -1
  end.

(** Relative position of [slice]: negative counts from the end, and the
    result is clamped to [0 .. length]. *)
Definition clamp (len k : Z) : Z :=
  if k <? 0 then Z.max (len + k) 0 else Z.min k len.

(** [s.slice(start, end)]. *)
Definition slice (s : string) (start end_ : Z) : string :=
  let len := length s in
  let from := clamp len start in
  let to := clamp len end_ in
  String.substring (Z.to_nat from) (Z.to_nat (Z.max (to - from) 0)) s.

(** [s.substring(0, end)] for the only call shape the plugin has: a start
    of [0] and an end that [indexOf] found (so [0 <= end <= length]). *)
Definition substring0 (s : string) (end_ : Z) : string :=
  String.substring 0 (Z.to_nat (Z.min (Z.max end_ 0) (length s))) s.

(** [a !== b] on strings. *)
Definition strict_ne (a b : string) : bool := negb (String.eqb a b).

End Js.

(** ** How JavaScript reads a single-quoted string literal

    The shim [load] returns is JavaScript text, and the event name stands in
    it between single quotes.  Between the quotes every character stands
    for itself, except the quote, which closes the literal, the backslash,
    which opens an escape, and a line terminator, which is an error.  Of
    the escapes, the single-character ones are read; a hexadecimal, unicode
    or octal escape and a line continuation are not modelled (no value). *)
Module JsLiteral.

Definition quote : ascii := "'"%char.
Definition backslash : ascii := ascii_of_nat 92.

Definition is_lineTerminator (c : ascii) : bool :=
  Ascii.eqb c (ascii_of_nat 10) || Ascii.eqb c (ascii_of_nat 13).

Definition is_digit (c : ascii) : bool :=
  (48 <=? nat_of_ascii c)%nat && (nat_of_ascii c <=? 57)%nat.

(** The character an escape [\c] stands for. *)
Definition escaped (c : ascii) : option ascii :=
  if Ascii.eqb c "b"%char then Some (ascii_of_nat 8)
  else if Ascii.eqb c "t"%char then Some (ascii_of_nat 9)
  else if Ascii.eqb c "n"%char then Some (ascii_of_nat 10)
  else if Ascii.eqb c "v"%char then Some (ascii_of_nat 11)
  else if Ascii.eqb c "f"%char then Some (ascii_of_nat 12)
  else if Ascii.eqb c "r"%char then Some (ascii_of_nat 13)
  else if Ascii.eqb c "x"%char || Ascii.eqb c "u"%char || is_digit c
          || is_lineTerminator c
       then None
  else Some c.

(** From the character after the opening quote: the value of the literal
    and the text after its closing quote. *)
Fixpoint readSingleQuoted (s : string) : option (string * string) :=
  match s with
  | EmptyString => None
  | String c s' =>
      if Ascii.eqb c quote then Some (EmptyString, s')
      else if is_lineTerminator c then None
      else if Ascii.eqb c backslash then
        match s' with
        | EmptyString => None
        | String e s'' =>
            match escaped e, readSingleQuoted s'' with
            | Some v, Some (value, rest) => Some (String v value, rest)
            | _, _ => None
            end
        end
      else
        match readSingleQuoted s' with
        | Some (value, rest) => Some (String c value, rest)
        | None => None
        end
  end.

(** A text that a single-quoted literal holds as it is. *)
Fixpoint plain (s : string) : bool :=
  match s with
  | EmptyString => true
  | String c s' =>
      negb (Ascii.eqb c quote) && negb (Ascii.eqb c backslash)
      && negb (is_lineTerminator c) && plain s'
  end.

End JsLiteral.

(** Characters that cannot be written inside a literal here. *)
Definition nl : string := String (ascii_of_nat 10) EmptyString.
Definition dquote : string := String (ascii_of_nat 34) EmptyString.

(** ** The [outdent] template tag

    [load] builds the development shim with the tagged template
    [outdent`...`] of the npm package of that name, called with its default
    options.  The tag receives the literal chunks of the template and the
    interpolated values; it removes the indentation of the first line from
    every line of the chunks (never from the values), drops the newline that
    opens the first chunk and the one that closes the last, and concatenates.
    The template of [load] is written with line feeds only, so only the line
    feed is treated as a line terminator here. *)
Module Outdent.

Definition is_nl (c : ascii) : bool := Ascii.eqb c (ascii_of_nat 10).
Definition is_blank (c : ascii) : bool :=
  Ascii.eqb c " "%char || Ascii.eqb c (ascii_of_nat 9).

Fixpoint count_blank (s : string) : nat :=
  match s with
  | String c s' => if is_blank c then S (count_blank s') else O
  | EmptyString => O
  end.

Fixpoint drop_blank (s : string) : string :=
  match s with
  | String c s' => if is_blank c then drop_blank s' else s
  | EmptyString => EmptyString
  end.

(** The indentation level: the number of blanks after the first line feed
    that is followed, past its blanks, by a character of another kind or by
    the end of the chunk. *)
Fixpoint detectIndentation (s : string) : option nat :=
  match s with
  | EmptyString => None
  | String c s' =>
      if is_nl c then
        match drop_blank s' with
        | EmptyString => Some (count_blank s')
        | String d _ =>
            if is_nl d then detectIndentation s' else Some (count_blank s')
        end
      else detectIndentation s'
  end.

(** Removing the indentation: after every line feed, up to [n] characters
    of the line are removed, whatever they are; [k] counts what is still
    to be removed on the current line. *)
Fixpoint removeIndent (n k : nat) (s : string) : string :=
  match s with
  | EmptyString => EmptyString
  | String c s' =>
      if is_nl c then String c (removeIndent n n s')
      else
        match k with
        | S k' => removeIndent n k' s'
        | O => String c (removeIndent n O s')
        end
  end.

(** A chunk that opens with blanks and a line feed loses them. *)
Definition trimLeadingNewline (s : string) : string :=
  match drop_blank s with
  | String c s' => if is_nl c then s' else s
  | EmptyString => s
  end.

(** A chunk that closes with a line feed and blanks loses them. *)
Fixpoint trimTrailingNewline (s : string) : string :=
  match s with
  | EmptyString => EmptyString
  | String c s' =>
      if is_nl c && match drop_blank s' with EmptyString => true | _ => false end
      then EmptyString
      else String c (trimTrailingNewline s')
  end.

Definition outdentArray (strings : list string) : list string :=
  let indentationLevel := default O (detectIndentation (hd EmptyString strings)) in
  let l := List.length strings in
  imap (fun i v =>
          let v := removeIndent indentationLevel O v in
          let v := if Nat.eqb i 0 then trimLeadingNewline v else v in
          if Nat.eqb i (l - 1) then trimTrailingNewline v else v)
       strings.

(** The chunks and the values, interleaved. *)
Fixpoint concatStringsAndValues (strings values : list string) : string :=
  match strings with
  | [] => EmptyString
  | [s] => s
  | s :: strings' =>
      s +:+ hd EmptyString values
        +:+ concatStringsAndValues strings' (tl values)
  end.

Definition outdent (strings values : list string) : string :=
  concatStringsAndValues (outdentArray strings) values.

End Outdent.

(** ** Data model *)

(** [config.command] of the resolved Vite configuration. *)
Inductive Command : Type := serve | build.

Definition Command_eqb (a b : Command) : bool :=
  match a, b with
  | serve, serve | build, build => true
  | _, _ => false
  end.

(** The fields of [ResolvedConfig] the plugin reads. *)
Record ResolvedConfig : Type := {
  command : Command;
  mode : string;
  root : string;
}.

(** [IdentifierOption] of the integration package. *)
Inductive IdentifierOption : Type := short | debug.

(** What the plugin calls on the dev server: [moduleGraph.getModuleById]
    answers a module node for the ids in [moduleGraph], nothing otherwise. *)
Record ViteDevServer : Type := {
  moduleGraph : gset string;
}.

Definition getModuleById (srv : ViteDevServer) (id : string) : bool :=
  bool_decide (id ∈ moduleGraph srv).

(** The result of [compile]. *)
Record CompileResult : Type := {
  source : string;
  watchFiles : list string;
}.

(** A value returned or an error thrown. *)
Inductive Result (A : Type) : Type :=
| Ok (a : A)
| Throw (message : string).
Arguments Ok {A} a.
Arguments Throw {A} message.

(** The compiler as it answers at the time of one call:
    [compile({ filePath, cwd })]. *)
Definition Compiler : Type := string -> string -> Result CompileResult.

(** The calls the plugin makes on its host. *)
Inductive Effect : Type :=
| InvalidateModule (id : string)
    (* moduleGraph.invalidateModule(moduleGraph.getModuleById(id)) *)
| WsSend (event data : string)
    (* server.ws.send({ type: 'custom', event, data }) *)
| AddWatchFile (file : string).
    (* this.addWatchFile(file) *)

(** ** Collaborators

    [@vanilla-extract/integration] is imported, not defined, by the plugin:
    its functions are the members of a class. *)
Class Integration : Type := {
  FileScope : Type;
  PackageInfo : Type;
  (** [cssFileFilter.test(id)] *)
  cssFileFilter : string -> bool;
  (** [getPackageInfo(root)] and the [dirname] of its result *)
  getPackageInfo : string -> PackageInfo;
  dirname : PackageInfo -> string;
  (** [addFileScope({ source, filePath, packageInfo }).source] *)
  addFileScope : string -> string -> PackageInfo -> string;
  (** The file scope codec.  Modelled from the spec: [decode] fails with
      MalformedIdentifier on a string [encode] did not produce, and the two
      are mutually inverse. *)
  stringifyFileScope : FileScope -> string;
  parseFileScope : string -> Result FileScope;
  parse_stringify :
    forall fileScope, parseFileScope (stringifyFileScope fileScope) = Ok fileScope;
  (** The two halves of [processVanillaFile]: the CSS fragments it extracts
      from a compiled source, in the order it hands them to the callback,
      and the JavaScript it assembles around the callback's answers. *)
  extractCss : string -> string -> IdentifierOption -> list (FileScope * string);
  assembleSource : string -> string -> IdentifierOption -> list string -> string;
}.

(** What the plugin uses of Node ([path.relative]), of Vite
    ([normalizePath]) and of the language ([JSON.stringify], at the two
    types it is called at). *)
Class Runtime `{Integration} : Type := {
  path_relative : string -> string -> string;
  normalizePath : string -> string;
  JSON_stringify_scope : FileScope -> string;
  JSON_stringify : string -> string;
}.

(** ** The plugin closure

    [config], [packageInfo] and [virtualExt] are declared without a value
    and assigned by [configResolved], which the host runs once and before
    [configureServer], [resolveId], [load] and [transform].  A [State] is the
    closure from that point on; [identifiers] is the option the plugin was
    created with. *)
Record State `{Integration} : Type := {
  identifiers : option IdentifierOption;
  config : ResolvedConfig;
  packageInfo : PackageInfo;
  server : option ViteDevServer;
  cssMap : gmap string string;
  virtualExt : string;
}.

(** ** Hooks as state transformers

    A hook runs on the closure, may change it, calls the host, and returns
    or throws.  An error keeps the state and the effects reached before it:
    nothing is rolled back. *)
Section Plugin.
Context {itg : Integration} {rt : Runtime}.

Definition Hook (A : Type) : Type := State -> Result A * State * list Effect.

#[export] Instance Hook_ret : MRet Hook :=
  fun A (a : A) s => (Ok a, s, []).

#[export] Instance Hook_bind : MBind Hook :=
  fun A B (k : A -> Hook B) (m : Hook A) s =>
    match m s with
    | (Ok a, s', effects) =>
        let '(r, s'', effects') := k a s' in (r, s'', effects ++ effects')
    | (Throw message, s', effects) => (Throw message, s', effects)
    end.

Definition get : Hook State := fun s => (Ok s, s, []).
Definition emit (e : Effect) : Hook unit := fun s => (Ok tt, s, [e]).
Definition await {A} (r : Result A) : Hook A := fun s => (r, s, []).

(** [for (const x of xs) body(x)] *)
Fixpoint forOf {A} (xs : list A) (body : A -> Hook unit) : Hook unit :=
  match xs with
  | [] => mret tt
  | x :: xs' => body x ;; forOf xs' body
  end.

(** [if (c) body] *)
Definition when (c : bool) (body : Hook unit) : Hook unit :=
  if c then body else mret tt.

Definition styleUpdateEvent (fileId : string) : string :=
  "vanilla-extract-style-update:" +:+ fileId.

Definition virtualPrefix : string := "virtual:vanilla-extract:".

(** [cssMap.has(k)], [cssMap.get(k)] ([None] is [undefined]) and
    [cssMap.set(k, v)]. *)
Definition cssMap_has (s : State) (k : string) : bool :=
  bool_decide (is_Some (cssMap s !! k)).
Definition cssMap_get (s : State) (k : string) : option string :=
  cssMap s !! k.
Definition setCss (k v : string) (s : State) : State :=
  {| identifiers := identifiers s; config := config s;
     packageInfo := packageInfo s; server := server s;
     cssMap := <[k := v]> (cssMap s); virtualExt := virtualExt s |}.
Definition cssMap_set (k v : string) : Hook unit :=
  fun s => (Ok tt, setCss k v s, []).

(** [x !== source], where [x] may be [undefined]. *)
Definition differs (x : option string) (source : string) : bool :=
  match x with
  | Some css => Js.strict_ne css source
  | None => true
  end.

(** [config(_userConfig, env)]: the [optimizeDeps.include] and the
    [ssr.external] lists of the returned configuration. *)
Definition config_hook (env_command : Command) : list string * list string :=
  let include :=
    if Command_eqb env_command serve
    then ["@vanilla-extract/css/injectStyles"] else [] in
  (include,
   ["@vanilla-extract/css"; "@vanilla-extract/css/fileScope";
    "@vanilla-extract/css/adapter"]).

(** A new plugin on which [configResolved(resolvedConfig)] has run. *)
Definition configResolved (identifiers : option IdentifierOption)
    (resolvedConfig : ResolvedConfig) : State :=
  {| identifiers := identifiers;
     config := resolvedConfig;
     virtualExt :=
       ".vanilla." +:+
         (if Command_eqb (command resolvedConfig) serve then "js" else "css");
     packageInfo := getPackageInfo (root resolvedConfig);
     server := None;
     cssMap := ∅ |}.

(** [configureServer(_server)] *)
Definition configureServer (_server : ViteDevServer) : Hook unit :=
  fun s =>
    (Ok tt,
     {| identifiers := identifiers s; config := config s;
        packageInfo := packageInfo s; server := Some _server;
        cssMap := cssMap s; virtualExt := virtualExt s |},
     []).

(** [resolveId(id)]; [None] is [undefined]. *)
Definition resolveId (id : string) : option string :=
  if Js.indexOf id virtualPrefix =? 0 then Some id else None.

(** The literal chunks of the template in [load], as the source has them. *)
Definition shimTemplate : list string :=
  ["
          import { injectStyles } from '@vanilla-extract/css/injectStyles';
          
          const inject = (css) => injectStyles({
            fileScope: "; ",
            css
          });

          inject("; ");

          import.meta.hot.on('"; "', (css) => {
            inject(css);
          });   
        "].

(** The file scope id [load] cuts out of a virtual module id. *)
Definition fileScopeIdOf (s : State) (id : string) : string :=
  Js.slice id (Js.length virtualPrefix) (Js.indexOf id (virtualExt s)).

(** [load(id)]; [Ok None] is [null].  [cssMap.has] and the asserted
    [cssMap.get] are one lookup. *)
Definition load (id : string) (s : State) : Result (option string) :=
  if Js.indexOf id virtualPrefix =? 0 then
    let fileScopeId := fileScopeIdOf s id in
    match cssMap_get s fileScopeId with
    | None =>
        Throw ("Unable to locate " +:+ fileScopeId +:+ " in the CSS map.")
    | Some css =>
        match server s with
        | None => Ok (Some css)
        | Some _ =>
            match parseFileScope fileScopeId with
            | Throw message => Throw message
            | Ok fileScope =>
                Ok (Some (Outdent.outdent shimTemplate
                            [JSON_stringify_scope fileScope;
                             JSON_stringify css;
                             styleUpdateEvent fileScopeId]))
            end
        end
    end
  else Ok None.

(** The id of the virtual CSS module of a scope. *)
Definition virtualCssId (s : State) (fileId : string) : string :=
  virtualPrefix +:+ fileId +:+ virtualExt s.

(** The callback [transform] hands to [processVanillaFile]. *)
Definition serializeVirtualCssPath (fileScope : FileScope) (source : string)
    : Hook string :=
  let fileId := stringifyFileScope fileScope in
  s ← get;
  let id := virtualCssId s fileId in
  match server s with
  | Some srv =>
      when (cssMap_has s fileId && differs (cssMap_get s fileId) source)
        (when (getModuleById srv id) (emit (InvalidateModule id));;
         emit (WsSend (styleUpdateEvent fileId) source))
  | None => mret tt
  end;;
  cssMap_set fileId source;;
  mret ("import " +:+ dquote +:+ id +:+ dquote +:+ ";").

(** Modelled from the spec: [processVanillaFile] is not part of this file;
    it invokes the callback once per extracted CSS fragment and returns the
    finalized JavaScript, built around the import statements the callback
    answered. *)
Definition processVanillaFile (source filePath : string)
    (identOption : IdentifierOption)
    (callback : FileScope -> string -> Hook string) : Hook string :=
  imports ← mapM (fun fragment => callback fragment.1 fragment.2)
                 (extractCss source filePath identOption);
  mret (assembleSource source filePath identOption imports).

(** [validId]: the id without its query. *)
Definition validIdOf (id : string) : string :=
  let index := Js.indexOf id "?" in
  if index =? -1 then id else Js.substring0 id index.

(** [identifiers ?? (config.mode === 'production' ? 'short' : 'debug')] *)
Definition identOptionOf (s : State) : IdentifierOption :=
  default (if String.eqb (mode (config s)) "production" then short else debug)
          (identifiers s).

(** [config.command === 'build' || file !== id] *)
Definition watched (s : State) (id file : string) : bool :=
  Command_eqb (command (config s)) build || Js.strict_ne file id.

(** [transform(code, id, ssr)], with the compiler it awaits.  The closure is
    read when the compiler has answered: what is read before ([config.root])
    no hook changes. *)
Definition transform (compile : Compiler) (code id : string) (ssr : bool)
    : Hook (option string) :=
  if negb (cssFileFilter id) then mret None
  else
    let validId := validIdOf id in
    s ← get;
    if ssr then
      mret (Some (addFileScope code
                    (normalizePath (path_relative (dirname (packageInfo s)) validId))
                    (packageInfo s)))
    else
      compiled ← await (compile validId (root (config s)));
      forOf (watchFiles compiled) (fun file =>
        when (watched s id file) (emit (AddWatchFile file)));;
      js ← processVanillaFile (source compiled) validId (identOptionOf s)
             serializeVirtualCssPath;
      mret (Some js).

(** ** The life of a plugin

    After [configResolved] the host calls the other hooks in any order and
    any number of times. *)
Inductive HookCall : Type :=
| CallConfigureServer (_server : ViteDevServer)
| CallResolveId (id : string)
| CallLoad (id : string)
| CallTransform (compile : Compiler) (code id : string) (ssr : bool).

(** The closure and the effects after one call. *)
Definition call (c : HookCall) (s : State) : State * list Effect :=
  match c with
  | CallConfigureServer _server =>
      let '(_, s', effects) := configureServer _server s in (s', effects)
  | CallResolveId _ => (s, [])
  | CallLoad _ => (s, [])
  | CallTransform compile code id ssr =>
      let '(_, s', effects) := transform compile code id ssr s in (s', effects)
  end.

Definition after (s : State) (calls : list HookCall) : State :=
  foldl (fun s c => (call c s).1) s calls.

End Plugin.

(** ** The vocabulary of the properties *)
Section Notions.
Context {itg : Integration} {rt : Runtime}.

(** The three parts of what a hook leaves. *)
Definition result_of {A} (o : Result A * State * list Effect) : Result A := o.1.1.
Definition state_of {A} (o : Result A * State * list Effect) : State := o.1.2.
Definition effects_of {A} (o : Result A * State * list Effect) : list Effect := o.2.

Definition keeps (R : relation State) {A} (m : Hook A) : Prop :=
  forall s, R s (state_of (m s)).

(** What no hook after [configResolved] undoes: the configuration, the
    extension and the options stay, an attached server stays attached, and
    no key leaves the registry. *)
Record extends (s s' : State) : Prop := {
  extends_identifiers : identifiers s' = identifiers s;
  extends_config : config s' = config s;
  extends_packageInfo : packageInfo s' = packageInfo s;
  extends_virtualExt : virtualExt s' = virtualExt s;
  extends_server : is_Some (server s) -> is_Some (server s');
  extends_cssMap : dom (cssMap s) ⊆ dom (cssMap s');
}.

(** Every key of the registry is the encoding of a scope. *)
Definition encoded (s : State) : Prop :=
  forall k, is_Some (cssMap s !! k) -> exists fileScope, stringifyFileScope fileScope = k.

Definition keeps_encoded : relation State := fun s s' => encoded s -> encoded s'.

(** The string without its last character. *)
Fixpoint dropLast (s : string) : string :=
  match s with
  | EmptyString => EmptyString
  | String c s' =>
      match s' with
      | EmptyString => EmptyString
      | String _ _ => String c (dropLast s')
      end
  end.

(** The development shim, line by line: the import of the injection
    runtime, the [inject] closure, one call of it with the current CSS, and
    one subscription to the scope's event whose handler calls it again. *)
Definition injectionShim (scopeJson cssJson event : string) : string :=
  String.concat nl
    ["import { injectStyles } from '@vanilla-extract/css/injectStyles';";
     "";
     "const inject = (css) => injectStyles({";
     "  fileScope: " +:+ scopeJson +:+ ",";
     "  css";
     "});";
     "";
     "inject(" +:+ cssJson +:+ ");";
     "";
     "import.meta.hot.on('" +:+ event +:+ "', (css) => {";
     "  inject(css);";
     "});   "].

(** The shim up to its subscription. *)
Definition shimHead (scopeJson cssJson : string) : string :=
  String.concat nl
    ["import { injectStyles } from '@vanilla-extract/css/injectStyles';";
     "";
     "const inject = (css) => injectStyles({";
     "  fileScope: " +:+ scopeJson +:+ ",";
     "  css";
     "});";
     "";
     "inject(" +:+ cssJson +:+ ");";
     "";
     ""].

(** What the callback tells the dev server: nothing, or the invalidation of
    the cached virtual module, if there is one, and then the broadcast. *)
Definition hmrEffects (s : State) (fileId source : string) : list Effect :=
  match server s with
  | Some srv =>
      if cssMap_has s fileId && differs (cssMap_get s fileId) source
      then (if getModuleById srv (virtualCssId s fileId)
            then [InvalidateModule (virtualCssId s fileId)] else [])
           ++ [WsSend (styleUpdateEvent fileId) source]
      else []
  | None => []
  end.

(** The scope is due for a hot update: a dev server is attached and the
    registry holds for it a CSS text other than the new one. *)
Definition hmr_due (s : State) (fileId source : string) : Prop :=
  is_Some (server s)
  /\ exists old, cssMap s !! fileId = Some old /\ old <> source.

(** The cached module of the scope, if the attached server has one. *)
Definition cachedModule (s : State) (fileId : string) : list string :=
  match server s with
  | Some srv =>
      if getModuleById srv (virtualCssId s fileId)
      then [virtualCssId s fileId] else []
  | None => []
  end.

(** The import statement the callback answers. *)
Definition importOf (id : string) : string :=
  "import " +:+ dquote +:+ id +:+ dquote +:+ ";".

(** The fragments of a file registered one after the other: the closure in
    the end and what the dev server was told on the way. *)
Fixpoint registerAll (fragments : list (FileScope * string)) (s : State)
    : State * list Effect :=
  match fragments with
  | [] => (s, [])
  | fragment :: fragments' =>
      let fileId := stringifyFileScope fragment.1 in
      let '(s', effects) := registerAll fragments' (setCss fileId fragment.2 s) in
      (s', hmrEffects s fileId fragment.2 ++ effects)
  end.

(** The virtual module id as the specification words it: the extension is
    [.js] while a dev server is attached and [.css] otherwise. *)
Definition specVirtualId (s : State) (fileId : string) : string :=
  "virtual:vanilla-extract:" +:+ fileId
    +:+ (match server s with Some _ => ".js" | None => ".css" end).

(** The scope ids of the fragments of a file, in order. *)
Definition fileIds (fragments : list (FileScope * string)) : list string :=
  (fun fragment => stringifyFileScope fragment.1) <$> fragments.

(** The fragments a client transform of [id] registers, given what the
    compiler answered. *)
Definition fragmentsOf (s : State) (id : string) (compiled : CompileResult)
    : list (FileScope * string) :=
  extractCss (source compiled) (validIdOf id) (identOptionOf s).

(** A watch registration, as opposed to a message to the dev server. *)
Definition isWatch (e : Effect) : Prop :=
  match e with
  | AddWatchFile _ => True
  | _ => False
  end.

(** The servers a sequence of calls hands to [configureServer], in order. *)
Definition serversOf (calls : list HookCall) : list ViteDevServer :=
  omap (fun c =>
          match c with
          | CallConfigureServer _server => Some _server
          | _ => None
          end)
       calls.

(** Two closures that the callback cannot tell apart on the scopes [ks]. *)
Definition same_on (ks : list string) (s1 s : State) : Prop :=
  server s1 = server s
  /\ virtualExt s1 = virtualExt s
  /\ forall k, k ∈ ks -> cssMap s1 !! k = cssMap s !! k.

End Notions.

(** ** A concrete project

    One implementation of the collaborators, to run the plugin on. *)
Module Demo.

Definition endsWith (s suffix : string) : bool :=
  let n := String.length s in
  let k := String.length suffix in
  Nat.leb k n && String.eqb (String.substring (n - k) k s) suffix.

(** Modelled from the spec: [cssFileFilter] is imported from the integration
    package; a style file is recognised by file-extension/query matching.
    Here: [.css.ts] or [.css.js], with or without the query [?used]. *)
Definition styleFile (id : string) : bool :=
  endsWith id ".css.ts" || endsWith id ".css.js"
  || endsWith id ".css.ts?used" || endsWith id ".css.js?used".

(** A scope is its file path and is its own encoding; the compiled source
    of a file is the CSS of its one scope. *)
#[export] Instance integration : Integration := {|
  FileScope := string;
  PackageInfo := string;
  cssFileFilter := styleFile;
  getPackageInfo := fun root => root;
  dirname := fun packageInfo => packageInfo;
  addFileScope := fun source filePath _ =>
    "setFileScope(" +:+ filePath +:+ ");" +:+ source;
  stringifyFileScope := fun fileScope => fileScope;
  parseFileScope := fun fileId => Ok fileId;
  parse_stringify := fun _ => eq_refl;
  extractCss := fun source filePath _ => [(filePath, source)];
  assembleSource := fun _ _ _ imports => String.concat nl imports;
|}.

#[export] Instance runtime : Runtime := {|
  path_relative := fun _ to => to;
  normalizePath := fun p => p;
  JSON_stringify_scope := fun fileScope => dquote +:+ fileScope +:+ dquote;
  JSON_stringify := fun s => dquote +:+ s +:+ dquote;
|}.

Definition devConfig : ResolvedConfig :=
  {| command := serve; mode := "development"; root := "/app" |}.
Definition buildConfig : ResolvedConfig :=
  {| command := build; mode := "production"; root := "/app" |}.

Definition devServer : ViteDevServer :=
  {| moduleGraph := {[ "virtual:vanilla-extract:/app/src/theme.css.ts.vanilla.js" ]} |}.

(** The compiler at a time when [theme.css.ts] holds one red rule, and
    later a blue one; the file imports [vars.css.ts]. *)
Definition compileRed : Compiler := fun filePath _ =>
  Ok {| source := ".a{color:red}";
        watchFiles := [filePath; "/app/src/vars.css.ts"] |}.
Definition compileBlue : Compiler := fun filePath _ =>
  Ok {| source := ".a{color:blue}";
        watchFiles := [filePath; "/app/src/vars.css.ts"] |}.

Definition theme : string := "/app/src/theme.css.ts".

(** A dev session: the server attaches, the theme is compiled. *)
Definition devSession : list HookCall :=
  [CallConfigureServer devServer;
   CallTransform compileRed "" theme false].

Definition devState : State := after (configResolved None devConfig) devSession.
Definition buildState : State :=
  after (configResolved None buildConfig) [CallTransform compileRed "" theme false].

(** The compiler on a file it cannot compile. *)
Definition compileFails : Compiler := fun _ _ =>
  Throw "Build failed with 1 error".

(** A second style file, and the dev session once both are compiled. *)
Definition layout : string := "/app/src/layout.css.ts".
Definition twoFiles : State :=
  after devState [CallTransform compileRed "" layout false].

(** What [compileBlue] answers on the theme. *)
Definition blueTheme : CompileResult :=
  {| source := ".a{color:blue}";
     watchFiles := [theme; "/app/src/vars.css.ts"] |}.

(** A style file with an apostrophe in its name, compiled in a dev
    session, and its virtual module. *)
Definition its : string := "/app/src/it's.css.ts".
Definition itsDevId : string :=
  "virtual:vanilla-extract:/app/src/it's.css.ts.vanilla.js".
Definition itsState : State :=
  after (configResolved None devConfig)
    [CallConfigureServer devServer; CallTransform compileRed "" its false].

(** The virtual module of the theme, in a build and in a dev server. *)
Definition themeBuildId : string :=
  "virtual:vanilla-extract:/app/src/theme.css.ts.vanilla.css".
Definition themeDevId : string :=
  "virtual:vanilla-extract:/app/src/theme.css.ts.vanilla.js".

End Demo.

(** ** A project whose files yield several fragments

    The compiled source of a file lists the fragments it extracts, one
    [scope>css] entry after the other, separated by [|]: the scope of the
    file and those of the style files it imports. *)
Module Bundle.

(** The pieces of [s] between the occurrences of [c]. *)
Fixpoint split (c : ascii) (s : string) : list string :=
  match s with
  | EmptyString => [EmptyString]
  | String d s' =>
      if Ascii.eqb d c then EmptyString :: split c s'
      else match split c s' with
           | piece :: pieces => String d piece :: pieces
           | [] => [String d EmptyString]
           end
  end.

(** [s] before and after the first [c]. *)
Fixpoint cutAt (c : ascii) (s : string) : string * string :=
  match s with
  | EmptyString => (EmptyString, EmptyString)
  | String d s' =>
      if Ascii.eqb d c then (EmptyString, s')
      else (String d (cutAt c s').1, (cutAt c s').2)
  end.

#[export] Instance integration : Integration := {|
  FileScope := string;
  PackageInfo := string;
  cssFileFilter := Demo.styleFile;
  getPackageInfo := fun root => root;
  dirname := fun packageInfo => packageInfo;
  addFileScope := fun source filePath _ =>
    "setFileScope(" +:+ filePath +:+ ");" +:+ source;
  stringifyFileScope := fun fileScope => fileScope;
  parseFileScope := fun fileId => Ok fileId;
  parse_stringify := fun _ => eq_refl;
  extractCss := fun source _ _ => cutAt ">"%char <$> split "|"%char source;
  assembleSource := fun _ _ _ imports => String.concat nl imports;
|}.

#[export] Instance runtime : Runtime := {|
  path_relative := fun _ to => to;
  normalizePath := fun p => p;
  JSON_stringify_scope := fun fileScope => dquote +:+ fileScope +:+ dquote;
  JSON_stringify := fun s => dquote +:+ s +:+ dquote;
|}.

Definition vars : string := "/app/src/vars.css.ts".
Definition theme : string := "/app/src/theme.css.ts".
Definition layout : string := "/app/src/layout.css.ts".

(** The theme imports the variables and the layout; its compilation yields
    the CSS of the three scopes.  In the second version only the rule of
    the theme itself differs. *)
Definition version1 : CompileResult :=
  {| source := "/app/src/vars.css.ts>:root{--c:red}"
                 +:+ "|/app/src/theme.css.ts>.a{color:red}"
                 +:+ "|/app/src/layout.css.ts>.l{margin:0}";
     watchFiles := [theme; vars; layout] |}.
Definition version2 : CompileResult :=
  {| source := "/app/src/vars.css.ts>:root{--c:red}"
                 +:+ "|/app/src/theme.css.ts>.a{color:blue}"
                 +:+ "|/app/src/layout.css.ts>.l{margin:0}";
     watchFiles := [theme; vars; layout] |}.
(** In the third version the variables and the theme both differ from the
    first. *)
Definition version3 : CompileResult :=
  {| source := "/app/src/vars.css.ts>:root{--c:blue}"
                 +:+ "|/app/src/theme.css.ts>.a{color:blue}"
                 +:+ "|/app/src/layout.css.ts>.l{margin:0}";
     watchFiles := [theme; vars; layout] |}.
Definition compile3 : Compiler := fun _ _ => Ok version3.
Definition compile1 : Compiler := fun _ _ => Ok version1.
Definition compile2 : Compiler := fun _ _ => Ok version2.

Definition devServer : ViteDevServer :=
  {| moduleGraph :=
       {[ "virtual:vanilla-extract:/app/src/theme.css.ts.vanilla.js";
          "virtual:vanilla-extract:/app/src/vars.css.ts.vanilla.js" ]} |}.

(** A dev session in which the theme has been compiled once. *)
Definition session : State :=
  after (configResolved None Demo.devConfig)
    [CallConfigureServer devServer; CallTransform compile1 "" theme false].

End Bundle.

(** * Properties *)

(** ** Strings *)
Section Strings.

Lemma append_cons (x : ascii) (a b : string) :
  String x a +:+ b = String x (a +:+ b).
Proof. reflexivity. Qed.

Lemma append_length (p s : string) :
  String.length (p +:+ s) = (String.length p + String.length s)%nat.
Proof.
  induction p as [|c p IH]; [reflexivity|].
  rewrite append_cons. simpl. now rewrite IH.
Qed.

Lemma append_assoc (a b c : string) : (a +:+ b) +:+ c = a +:+ (b +:+ c).
Proof.
  induction a as [|x a IH]; [reflexivity|].
  rewrite !append_cons. now rewrite IH.
Qed.

(** [startsWith], in the two forms used below. *)
Lemma prefix_split (p s : string) :
  String.prefix p s = true <-> exists rest, s = p +:+ rest.
Proof.
  revert s; induction p as [|c p IH]; intros s.
  - split; [exists s; reflexivity | destruct s; reflexivity].
  - destruct s as [|d s]; simpl.
    + split; [discriminate | intros [rest Hrest]; discriminate].
    + destruct (ascii_dec c d) as [->|Hne].
      * rewrite IH. split; intros [rest Hrest]; exists rest.
        -- now rewrite Hrest.
        -- now inversion Hrest.
      * split; [discriminate | intros [rest Hrest]].
        inversion Hrest; congruence.
Qed.

Lemma index_cons (p : string) (d : ascii) (s : string) :
  String.index 0 p (String d s)
  = if String.prefix p (String d s) then Some O
    else S <$> String.index 0 p s.
Proof. simpl. destruct (String.index 0 p s); reflexivity. Qed.

(** The first occurrence is at [0] exactly when the string starts with the
    pattern. *)
Lemma index_zero (p s : string) :
  String.index 0 p s = Some O <-> String.prefix p s = true.
Proof.
  destruct s as [|d s].
  - destruct p; simpl; split; congruence.
  - rewrite index_cons. destruct (String.prefix p (String d s)).
    + split; reflexivity.
    + destruct (String.index 0 p s); simpl; split; congruence.
Qed.

Lemma indexOf_zero (s p : string) :
  Js.indexOf s p = 0 <-> exists rest, s = p +:+ rest.
Proof.
  rewrite <- prefix_split, <- index_zero. unfold Js.indexOf.
  destruct (String.index 0 p s) as [n|]; split; intros Hn.
  - f_equal. lia.
  - inversion Hn; reflexivity.
  - lia.
  - discriminate.
Qed.

Lemma index_bound (p s : string) (j : nat) :
  String.index 0 p s = Some j -> (j <= String.length s)%nat.
Proof.
  revert j; induction s as [|d s IH]; intros j.
  - destruct p; simpl; [intros [= <-]; lia | discriminate].
  - rewrite index_cons. destruct (String.prefix p (String d s)).
    + intros [= <-]; lia.
    + destruct (String.index 0 p s) as [n|]; simpl; [|discriminate].
      intros [= <-]. specialize (IH n eq_refl). simpl. lia.
Qed.

(** A pattern that opens with a character the first character of the string
    is not does not occur at [0]. *)
Lemma index_skip (c d : ascii) (p s : string) :
  c <> d ->
  String.index 0 (String c p) (String d s)
  = S <$> String.index 0 (String c p) s.
Proof.
  intros Hne. rewrite index_cons. simpl.
  destruct (ascii_dec c d); [contradiction | reflexivity].
Qed.

(** [slice] between two positions inside the string. *)
Lemma slice_between (s : string) (a b : Z) :
  0 <= a <= b -> b <= Js.length s ->
  Js.slice s a b = String.substring (Z.to_nat a) (Z.to_nat (b - a)) s.
Proof.
  intros Hab Hb. unfold Js.slice, Js.clamp.
  destruct (Z.ltb_spec a 0); [lia|]. destruct (Z.ltb_spec b 0); [lia|].
  f_equal; lia.
Qed.

(** [slice(a, -1)]: from [a] to the last character, excluded. *)
Lemma slice_to_last (s : string) (a : Z) :
  0 <= a <= Js.length s ->
  Js.slice s a (-1)
  = String.substring (Z.to_nat a) (Z.to_nat (Js.length s - 1 - a)) s.
Proof.
  intros Ha. unfold Js.slice, Js.clamp.
  destruct (Z.ltb_spec a 0); [lia|]. destruct (Z.ltb_spec (-1) 0); [|lia].
  f_equal; lia.
Qed.

Lemma append_nil_r (s : string) : s +:+ "" = s.
Proof.
  induction s as [|c s IH]; [reflexivity|]. rewrite append_cons. now rewrite IH.
Qed.

(** A pattern appended to a string occurs in the result, at the end of the
    string at the latest. *)
Lemma index_append (f p : string) :
  exists j, String.index 0 p (f +:+ p) = Some j /\ (j <= String.length f)%nat.
Proof.
  induction f as [|c f (j & Hj & Hle)].
  - exists O. split; [|reflexivity].
    apply index_zero, prefix_split. exists "". now rewrite append_nil_r.
  - rewrite append_cons, index_cons.
    destruct (String.prefix p (String c (f +:+ p))).
    + exists O. split; [reflexivity | simpl; lia].
    + exists (S j). rewrite Hj. split; [reflexivity | simpl; lia].
Qed.

Lemma substring_append (f p : string) (j : nat) :
  (j <= String.length f)%nat ->
  String.substring 0 j (f +:+ p) = String.substring 0 j f.
Proof.
  revert j; induction f as [|c f IH]; intros j Hj.
  - simpl in Hj. replace j with O by lia. now destruct p.
  - destruct j as [|j]; [reflexivity|].
    rewrite append_cons. simpl. rewrite IH by (simpl in Hj; lia). reflexivity.
Qed.

Lemma substring_all (s : string) : String.substring 0 (String.length s) s = s.
Proof. induction s as [|c s IH]; [reflexivity|]. simpl. now rewrite IH. Qed.

End Strings.

(** ** What a hook leaves related

    A small logic for [Hook]: [keeps R m] says that the closure after [m] is
    [R]-related to the closure before it, whether [m] returns or throws. *)
Section Logic.
Context {itg : Integration} {rt : Runtime}.
Context (R : relation State) `{!PreOrder R}.

Lemma keeps_ret {A} (a : A) : keeps R (mret a).
Proof. intros s. reflexivity. Qed.

Lemma keeps_bind {A B} (m : Hook A) (k : A -> Hook B) :
  keeps R m -> (forall a, keeps R (k a)) -> keeps R (m ≫= k).
Proof.
  intros Hm Hk s. specialize (Hm s).
  unfold mbind, Hook_bind, state_of in *.
  destruct (m s) as [[[a|message] s'] effects]; simpl in *; [|exact Hm].
  specialize (Hk a s'). unfold state_of in Hk.
  destruct (k a s') as [[r s''] effects']; simpl in *.
  etransitivity; eassumption.
Qed.

Lemma keeps_get : keeps R get.
Proof. intros s. reflexivity. Qed.

Lemma keeps_emit (e : Effect) : keeps R (emit e).
Proof. intros s. reflexivity. Qed.

Lemma keeps_await {A} (r : Result A) : keeps R (await r).
Proof. intros s. reflexivity. Qed.

Lemma keeps_when (c : bool) (body : Hook unit) :
  keeps R body -> keeps R (when c body).
Proof. intros Hbody. destruct c; [exact Hbody | apply keeps_ret]. Qed.

Lemma keeps_forOf {A} (xs : list A) (body : A -> Hook unit) :
  (forall x, keeps R (body x)) -> keeps R (forOf xs body).
Proof.
  intros Hbody. induction xs as [|x xs IH]; simpl.
  - apply keeps_ret.
  - apply keeps_bind; [apply Hbody | intros _; exact IH].
Qed.

Lemma keeps_mapM {A B} (f : A -> Hook B) (xs : list A) :
  (forall x, keeps R (f x)) -> keeps R (mapM f xs).
Proof.
  intros Hf. induction xs as [|x xs IH]; simpl.
  - apply keeps_ret.
  - apply keeps_bind; [apply Hf | intros y].
    apply keeps_bind; [exact IH | intros ys; apply keeps_ret].
Qed.

End Logic.

(** ** Frame and growth of the closure *)
Section Frame.
Context {itg : Integration} {rt : Runtime}.

#[export] Instance extends_preorder : PreOrder extends.
Proof.
  split.
  - intros s. split; auto.
  - intros s1 s2 s3 [] []. split; try congruence; auto. set_solver.
Qed.

#[export] Instance keeps_encoded_preorder : PreOrder keeps_encoded.
Proof. split; unfold keeps_encoded; [intros s | intros s1 s2 s3]; auto. Qed.

Lemma cssMap_set_extends (k v : string) : keeps extends (cssMap_set k v).
Proof.
  intros s. split; simpl; auto. rewrite dom_insert_L. set_solver.
Qed.

Lemma cssMap_set_encoded (fileScope : FileScope) (v : string) :
  keeps keeps_encoded (cssMap_set (stringifyFileScope fileScope) v).
Proof.
  intros s Hs k. simpl.
  destruct (decide (stringifyFileScope fileScope = k)) as [<-|Hne].
  - intros _. exists fileScope. reflexivity.
  - rewrite lookup_insert_ne by exact Hne. apply Hs.
Qed.

(** The part of the callback that talks to the dev server changes nothing. *)
Lemma serializeVirtualCssPath_keeps (R : relation State) `{!PreOrder R}
    (fileScope : FileScope) (source : string) :
  keeps R (cssMap_set (stringifyFileScope fileScope) source) ->
  keeps R (serializeVirtualCssPath fileScope source).
Proof.
  intros Hset. unfold serializeVirtualCssPath.
  apply (keeps_bind R); [apply (keeps_get R) | intros s].
  apply (keeps_bind R).
  - destruct (server s) as [srv|]; [|apply (keeps_ret R)].
    apply (keeps_when R), (keeps_bind R); [|intros _; apply (keeps_emit R)].
    apply (keeps_when R), (keeps_emit R).
  - intros _. apply (keeps_bind R); [exact Hset | intros _; apply (keeps_ret R)].
Qed.

Lemma processVanillaFile_keeps (R : relation State) `{!PreOrder R}
    (source filePath : string) (identOption : IdentifierOption) :
  (forall fileScope css, keeps R (cssMap_set (stringifyFileScope fileScope) css)) ->
  keeps R (processVanillaFile source filePath identOption serializeVirtualCssPath).
Proof.
  intros Hset. unfold processVanillaFile.
  apply (keeps_bind R); [|intros imports; apply (keeps_ret R)].
  apply (keeps_mapM R). intros [fileScope css].
  apply serializeVirtualCssPath_keeps; [assumption | apply Hset].
Qed.

Lemma transform_keeps (R : relation State) `{!PreOrder R}
    (compile : Compiler) (code id : string) (ssr : bool) :
  (forall fileScope css, keeps R (cssMap_set (stringifyFileScope fileScope) css)) ->
  keeps R (transform compile code id ssr).
Proof.
  intros Hset. unfold transform.
  destruct (negb (cssFileFilter id)); [apply (keeps_ret R)|].
  apply (keeps_bind R); [apply (keeps_get R) | intros s].
  destruct ssr; [apply (keeps_ret R)|].
  apply (keeps_bind R); [apply (keeps_await R) | intros compiled].
  apply (keeps_bind R).
  - apply (keeps_forOf R). intros file. apply (keeps_when R), (keeps_emit R).
  - intros _. apply (keeps_bind R); [|intros js; apply (keeps_ret R)].
    apply processVanillaFile_keeps; assumption.
Qed.

Lemma call_extends (c : HookCall) (s : State) : extends s (call c s).1.
Proof.
  destruct c as [srv|id|id|compile code id ssr]; simpl; try reflexivity.
  - split; simpl; auto.
  - pose proof (transform_keeps extends compile code id ssr
                  (fun fileScope css => cssMap_set_extends _ css) s) as Hs.
    unfold state_of in Hs.
    destruct (transform compile code id ssr s) as [[r s'] effects]. exact Hs.
Qed.

Lemma call_encoded (c : HookCall) (s : State) :
  encoded s -> encoded (call c s).1.
Proof.
  destruct c as [srv|id|id|compile code id ssr]; simpl; try (intros Hs; exact Hs).
  pose proof (transform_keeps keeps_encoded compile code id ssr
                cssMap_set_encoded s) as Hs.
  unfold state_of in Hs.
  destruct (transform compile code id ssr s) as [[r s'] effects]. exact Hs.
Qed.

Lemma after_extends (calls : list HookCall) (s : State) :
  extends s (after s calls).
Proof.
  revert s; induction calls as [|c calls IH]; intros s; simpl.
  - reflexivity.
  - etransitivity; [apply call_extends | apply IH].
Qed.

Lemma after_encoded (calls : list HookCall) (s : State) :
  encoded s -> encoded (after s calls).
Proof.
  revert s; induction calls as [|c calls IH]; intros s Hs; simpl.
  - exact Hs.
  - apply IH, call_encoded, Hs.
Qed.

Lemma configResolved_encoded (identifiers : option IdentifierOption)
    (resolvedConfig : ResolvedConfig) :
  encoded (configResolved identifiers resolvedConfig).
Proof. intros k [css Hk]. simpl in Hk. rewrite lookup_empty in Hk. discriminate. Qed.

End Frame.

(** ** The resolver *)
Section Resolver.
Context {itg : Integration} {rt : Runtime}.

(** C7.  [resolveId] returns the id unchanged if and only if the id starts
    with the reserved prefix [virtual:vanilla-extract:], and returns
    [undefined] for every other id. *)
Theorem resolveId_owns_prefixed (id : string) :
  (resolveId id = Some id <-> exists rest, id = virtualPrefix +:+ rest)
  /\ (resolveId id = None <-> ~ exists rest, id = virtualPrefix +:+ rest).
Proof.
  unfold resolveId.
  destruct (Z.eqb_spec (Js.indexOf id virtualPrefix) 0) as [Hat|Hat];
    rewrite indexOf_zero in Hat.
  - split; split; try (intros _; assumption); try reflexivity.
    + discriminate.
    + intros Hno; contradiction.
  - split; split; try discriminate; try (intros _; assumption).
    + intros Hyes; contradiction.
    + reflexivity.
Qed.

Lemma substring_dropLast (s : string) :
  String.substring 0 (String.length s - 1) s = dropLast s.
Proof.
  induction s as [|c s IH]; [reflexivity|].
  destruct s as [|d s]; [reflexivity|].
  simpl in *. rewrite Nat.sub_0_r in IH. now rewrite IH.
Qed.

Lemma substring_after_prefix (n : nat) (rest : string) :
  String.substring 24 n (virtualPrefix +:+ rest) = String.substring 0 n rest.
Proof. reflexivity. Qed.

(** The prefix holds no full stop, so a pattern that opens with one occurs
    in a prefixed id only past the prefix. *)
Lemma index_after_prefix (e rest : string) :
  String.index 0 (String "."%char e) (virtualPrefix +:+ rest)
  = Nat.add 24 <$> String.index 0 (String "."%char e) rest.
Proof.
  unfold virtualPrefix. cbv [String.append].
  repeat (rewrite index_skip by discriminate).
  destruct (String.index 0 (String "."%char e) rest); reflexivity.
Qed.

(** The extension is fixed by [configResolved] and opens with a full stop. *)
Lemma virtualExt_fixed (identifiers : option IdentifierOption)
    (resolvedConfig : ResolvedConfig) (calls : list HookCall) :
  virtualExt (after (configResolved identifiers resolvedConfig) calls)
  = match command resolvedConfig with
    | serve => ".vanilla.js"
    | build => ".vanilla.css"
    end.
Proof.
  rewrite (extends_virtualExt _ _ (after_extends calls _)). simpl.
  destruct (command resolvedConfig); reflexivity.
Qed.

Lemma fileScopeIdOf_found (s : State) (e rest : string) (j : nat) :
  virtualExt s = String "."%char e ->
  String.index 0 (virtualExt s) rest = Some j ->
  Js.indexOf (virtualPrefix +:+ rest) (virtualExt s) = 24 + Z.of_nat j
  /\ fileScopeIdOf s (virtualPrefix +:+ rest) = String.substring 0 j rest.
Proof.
  intros Hext Hj. unfold fileScopeIdOf, Js.indexOf.
  rewrite Hext in *. rewrite index_after_prefix, Hj.
  change (Nat.add 24 <$> Some j) with (Some (24 + j)%nat).
  split; [lia|].
  apply index_bound in Hj.
  change (Js.length virtualPrefix) with 24.
  rewrite slice_between
    by (unfold Js.length; rewrite ?append_length;
        change (String.length virtualPrefix) with 24%nat; lia).
  rewrite <- (substring_after_prefix j rest). f_equal; lia.
Qed.

Lemma fileScopeIdOf_missing (s : State) (e rest : string) :
  virtualExt s = String "."%char e ->
  String.index 0 (virtualExt s) rest = None ->
  Js.indexOf (virtualPrefix +:+ rest) (virtualExt s) = -1
  /\ fileScopeIdOf s (virtualPrefix +:+ rest) = dropLast rest.
Proof.
  intros Hext Hj. unfold fileScopeIdOf, Js.indexOf.
  rewrite Hext in *. rewrite index_after_prefix, Hj.
  change (Nat.add 24 <$> None) with (@None nat).
  split; [reflexivity|].
  change (Js.length virtualPrefix) with 24.
  rewrite slice_to_last
    by (unfold Js.length; rewrite ?append_length;
        change (String.length virtualPrefix) with 24%nat; lia).
  rewrite <- substring_dropLast, <- substring_after_prefix.
  unfold Js.length. rewrite append_length.
  change (String.length virtualPrefix) with 24%nat. f_equal; lia.
Qed.

End Resolver.

(** ** Loading a virtual module *)
Section Load.
Context {itg : Integration} {rt : Runtime}.

Lemma injectionShim_subscription (scopeJson cssJson event : string) :
  injectionShim scopeJson cssJson event
  = shimHead scopeJson cssJson
      +:+ "import.meta.hot.on('" +:+ event +:+ "', (css) => {" +:+ nl
      +:+ "  inject(css);" +:+ nl
      +:+ "});   ".
Proof.
  unfold injectionShim, shimHead. cbn [String.concat].
  rewrite !append_assoc. reflexivity.
Qed.

Lemma outdent_shimTemplate (scopeJson cssJson event : string) :
  Outdent.outdent shimTemplate [scopeJson; cssJson; event]
  = injectionShim scopeJson cssJson event.
Proof.
  unfold Outdent.outdent, injectionShim.
  let chunks := eval vm_compute in (Outdent.outdentArray shimTemplate) in
  change (Outdent.outdentArray shimTemplate) with chunks.
  cbn [Outdent.concatStringsAndValues String.concat hd tl].
  rewrite !append_assoc. reflexivity.
Qed.

Lemma resolveId_indexOf (id : string) :
  resolveId id = Some id <-> Js.indexOf id virtualPrefix = 0.
Proof.
  unfold resolveId.
  destruct (Z.eqb_spec (Js.indexOf id virtualPrefix) 0); split; congruence.
Qed.

(** [load] on an owned id is decided by one registry lookup. *)
Lemma load_owned (s : State) (id : string) :
  resolveId id = Some id ->
  load id s
  = match cssMap s !! fileScopeIdOf s id with
    | None =>
        Throw ("Unable to locate " +:+ fileScopeIdOf s id +:+ " in the CSS map.")
    | Some css =>
        match server s with
        | None => Ok (Some css)
        | Some _ =>
            match parseFileScope (fileScopeIdOf s id) with
            | Throw message => Throw message
            | Ok fileScope =>
                Ok (Some (injectionShim (JSON_stringify_scope fileScope)
                            (JSON_stringify css)
                            (styleUpdateEvent (fileScopeIdOf s id))))
            end
        end
    end.
Proof.
  intros Hid%resolveId_indexOf. unfold load, cssMap_get. rewrite Hid.
  change (0 =? 0) with true. cbv iota.
  destruct (cssMap s !! fileScopeIdOf s id) as [css|]; [|reflexivity].
  destruct (server s); [|reflexivity].
  destruct (parseFileScope (fileScopeIdOf s id)); [|reflexivity].
  now rewrite outdent_shimTemplate.
Qed.

(** A registered key decodes. *)
Lemma encoded_parses (s : State) (k css : string) :
  encoded s -> cssMap s !! k = Some css ->
  exists fileScope,
    stringifyFileScope fileScope = k /\ parseFileScope k = Ok fileScope.
Proof.
  intros Hs Hk. destruct (Hs k) as [fileScope <-]; [eauto|].
  exists fileScope. split; [reflexivity | apply parse_stringify].
Qed.

(** The text [load] returns for a virtual module id the resolver owns and
    whose file scope id is in the registry: without a dev server, the CSS
    stored for the scope; with a dev server, the template filled in, where
    the event name stands between single quotes as it is. *)
Theorem load_registered (identifiers : option IdentifierOption)
    (resolvedConfig : ResolvedConfig) (calls : list HookCall)
    (id css : string) :
  let s := after (configResolved identifiers resolvedConfig) calls in
  resolveId id = Some id ->
  cssMap s !! fileScopeIdOf s id = Some css ->
  match server s with
  | None => load id s = Ok (Some css)
  | Some _ =>
      exists fileScope,
        parseFileScope (fileScopeIdOf s id) = Ok fileScope
        /\ load id s
           = Ok (Some (injectionShim (JSON_stringify_scope fileScope)
                         (JSON_stringify css)
                         (styleUpdateEvent (fileScopeIdOf s id))))
  end.
Proof.
  intros s Hid Hcss. rewrite (load_owned s id Hid), Hcss.
  destruct (server s) as [srv|]; [|reflexivity].
  destruct (encoded_parses s _ _
              (after_encoded calls _ (configResolved_encoded _ _)) Hcss)
    as (fileScope & _ & Hparse).
  exists fileScope. now rewrite Hparse.
Qed.

(** C3.  On an id with the reserved prefix whose file scope id has no entry
    in the registry, [load] throws; it returns nothing, neither [null] nor
    a content. *)
Theorem load_unregistered (s : State) (id : string) :
  resolveId id = Some id ->
  cssMap s !! fileScopeIdOf s id = None ->
  load id s
  = Throw ("Unable to locate " +:+ fileScopeIdOf s id +:+ " in the CSS map.")
  /\ forall content, load id s <> Ok content.
Proof.
  intros Hid Hnone. rewrite (load_owned s id Hid), Hnone.
  split; [reflexivity | discriminate].
Qed.

(** C10.  On an id with the reserved prefix, [load] takes as file scope id
    what lies between the prefix and the first occurrence of the extension
    in the id; when the extension does not occur, [indexOf] answers [-1] and
    the file scope id is the rest of the id without its last character.
    The registry is looked up with that string: [load] succeeds exactly
    when it is a key. *)
Theorem load_fileScopeId (identifiers : option IdentifierOption)
    (resolvedConfig : ResolvedConfig) (calls : list HookCall)
    (rest : string) :
  let s := after (configResolved identifiers resolvedConfig) calls in
  let id := virtualPrefix +:+ rest in
  match String.index 0 (virtualExt s) rest with
  | Some j =>
      Js.indexOf id (virtualExt s) = Js.length virtualPrefix + Z.of_nat j
      /\ fileScopeIdOf s id = String.substring 0 j rest
  | None =>
      Js.indexOf id (virtualExt s) = -1
      /\ fileScopeIdOf s id = dropLast rest
  end
  /\ (is_Some (cssMap s !! fileScopeIdOf s id)
      <-> exists content, load id s = Ok (Some content)).
Proof.
  intros s id. split.
  - assert (exists e, virtualExt s = String "."%char e) as [e He].
    { unfold s. rewrite virtualExt_fixed.
      destruct (command resolvedConfig); eexists; reflexivity. }
    destruct (String.index 0 (virtualExt s) rest) as [j|] eqn:Hj.
    + exact (fileScopeIdOf_found s e rest j He Hj).
    + exact (fileScopeIdOf_missing s e rest He Hj).
  - assert (resolveId id = Some id) as Hid.
    { apply resolveId_indexOf, indexOf_zero. exists rest. reflexivity. }
    rewrite (load_owned s id Hid).
    destruct (cssMap s !! fileScopeIdOf s id) as [css|] eqn:Hcss.
    + split; [intros _ | eauto].
      destruct (server s) as [srv|]; [|eauto].
      destruct (encoded_parses s _ _
                  (after_encoded calls _ (configResolved_encoded _ _)) Hcss)
        as (fileScope & _ & ->).
      eauto.
    + split; [intros [? [=]] | intros [? [=]]].
Qed.

End Load.

(** ** Registering a fragment *)
Section Register.
Context {itg : Integration} {rt : Runtime}.

(** One run of the callback, in full. *)
Lemma serializeVirtualCssPath_run (fileScope : FileScope) (source : string)
    (s : State) :
  let fileId := stringifyFileScope fileScope in
  serializeVirtualCssPath fileScope source s
  = (Ok ("import " +:+ dquote +:+ virtualCssId s fileId +:+ dquote +:+ ";"),
     setCss fileId source s,
     hmrEffects s fileId source).
Proof.
  unfold serializeVirtualCssPath, hmrEffects, mbind, Hook_bind, get, when,
    cssMap_set, emit, mret, Hook_ret.
  cbv zeta beta.
  destruct (server s) as [srv|]; [|reflexivity].
  destruct (cssMap_has s _ && differs _ source); [|reflexivity].
  destruct (getModuleById srv _); reflexivity.
Qed.

Lemma hmr_due_spec (s : State) (fileId source : string) :
  hmr_due s fileId source
  <-> exists srv, server s = Some srv
      /\ cssMap_has s fileId && differs (cssMap_get s fileId) source = true.
Proof.
  unfold hmr_due, cssMap_has, cssMap_get, differs, Js.strict_ne.
  split.
  - intros [[srv Hsrv] (old & Hold & Hne)]. exists srv. split; [exact Hsrv|].
    rewrite Hold. rewrite bool_decide_eq_true_2 by eauto.
    apply String.eqb_neq in Hne. now rewrite Hne.
  - intros (srv & Hsrv & Hc). apply andb_true_iff in Hc as [Hhas Hdiff].
    apply bool_decide_eq_true_1 in Hhas as [old Hold].
    split; [eauto|]. exists old. split; [exact Hold|].
    rewrite Hold in Hdiff. apply negb_true_iff, String.eqb_neq in Hdiff.
    exact Hdiff.
Qed.

(** The three silent cases, one by one. *)
Lemma no_server_silent (fileScope : FileScope) (source : string) (s : State) :
  server s = None ->
  effects_of (serializeVirtualCssPath fileScope source s) = [].
Proof.
  intros Hsrv. rewrite serializeVirtualCssPath_run.
  unfold effects_of, hmrEffects. simpl. now rewrite Hsrv.
Qed.

Lemma first_registration_silent (fileScope : FileScope) (source : string)
    (s : State) :
  cssMap s !! stringifyFileScope fileScope = None ->
  effects_of (serializeVirtualCssPath fileScope source s) = [].
Proof.
  intros Hnew. rewrite serializeVirtualCssPath_run.
  unfold effects_of, hmrEffects, cssMap_has. simpl. rewrite Hnew.
  rewrite bool_decide_eq_false_2 by (intros [? [=]]).
  now destruct (server s).
Qed.

Lemma same_css_silent (fileScope : FileScope) (source : string) (s : State) :
  cssMap s !! stringifyFileScope fileScope = Some source ->
  effects_of (serializeVirtualCssPath fileScope source s) = [].
Proof.
  intros Hsame. rewrite serializeVirtualCssPath_run.
  unfold effects_of, hmrEffects, cssMap_get, differs, Js.strict_ne. simpl.
  rewrite Hsame, String.eqb_refl, andb_false_r.
  now destruct (server s).
Qed.

(** C1.  For each CSS fragment handed to the callback: if a dev server is
    attached and the registry already holds for the scope a CSS text that
    differs from the new one, the cached virtual module (when there is one)
    is invalidated once and the new CSS is broadcast once, and nothing else
    happens; otherwise (no server, first registration, or same CSS)
    nothing is invalidated and nothing is broadcast. *)
Theorem serializeVirtualCssPath_hmr (fileScope : FileScope) (source : string)
    (s : State) :
  let fileId := stringifyFileScope fileScope in
  let effects := effects_of (serializeVirtualCssPath fileScope source s) in
  (hmr_due s fileId source
   /\ effects = (InvalidateModule <$> cachedModule s fileId)
                ++ [WsSend (styleUpdateEvent fileId) source])
  \/ (~ hmr_due s fileId source /\ effects = []).
Proof.
  intros fileId effects. unfold effects.
  rewrite serializeVirtualCssPath_run. unfold effects_of; simpl.
  fold fileId. unfold hmrEffects, cachedModule.
  destruct (server s) as [srv|] eqn:Hsrv.
  - destruct (cssMap_has s fileId && differs (cssMap_get s fileId) source)
      eqn:Hc.
    + left. split; [apply hmr_due_spec; eauto|].
      destruct (getModuleById srv _); reflexivity.
    + right. split; [|reflexivity].
      intros (srv' & Hsrv' & Hc')%hmr_due_spec. congruence.
  - right. split; [|reflexivity].
    intros (srv' & Hsrv' & _)%hmr_due_spec. congruence.
Qed.

End Register.

(** ** A whole transform *)
Section Transform.
Context {itg : Integration} {rt : Runtime}.

Lemma virtualCssId_setCss (k v : string) (s : State) (fileId : string) :
  virtualCssId (setCss k v s) fileId = virtualCssId s fileId.
Proof. reflexivity. Qed.

Lemma mapM_serializeVirtualCssPath (fragments : list (FileScope * string))
    (s : State) :
  mapM (fun fragment => serializeVirtualCssPath fragment.1 fragment.2)
       fragments s
  = (Ok ((fun fragment =>
            importOf (virtualCssId s (stringifyFileScope fragment.1)))
           <$> fragments),
     (registerAll fragments s).1, (registerAll fragments s).2).
Proof.
  revert s; induction fragments as [|[fileScope css] fragments IH]; intros s.
  - reflexivity.
  - cbn [mapM]. unfold mbind at 1, Hook_bind at 1.
    rewrite serializeVirtualCssPath_run. cbv zeta.
    unfold mbind at 1, Hook_bind at 1. rewrite IH.
    cbn [registerAll fst snd].
    destruct (registerAll fragments _) as [s' effects].
    unfold mbind, Hook_bind, mret, Hook_ret. cbn [fst snd fmap list_fmap].
    rewrite app_nil_r. reflexivity.
Qed.

Lemma registerAll_cssMap (fragments : list (FileScope * string)) (s : State) :
  cssMap (registerAll fragments s).1
  = foldl (fun m fragment => <[stringifyFileScope fragment.1 := fragment.2]> m)
          (cssMap s) fragments.
Proof.
  revert s; induction fragments as [|fragment fragments IH]; intros s.
  - reflexivity.
  - cbn [registerAll foldl]. specialize (IH (setCss (stringifyFileScope fragment.1) fragment.2 s)).
    destruct (registerAll fragments _) as [s' effects]. exact IH.
Qed.

Lemma forOf_watch (s : State) (id : string) (files : list string) (s' : State) :
  forOf files (fun file => when (watched s id file) (emit (AddWatchFile file))) s'
  = (Ok tt, s', AddWatchFile <$> filter (fun file => watched s id file = true) files).
Proof.
  induction files as [|file files IH]; [reflexivity|].
  cbn [forOf]. rewrite filter_cons. unfold mbind, Hook_bind, when, emit in *.
  destruct (watched s id file) eqn:Hw.
  - rewrite decide_True by reflexivity. rewrite IH. reflexivity.
  - rewrite decide_False by discriminate.
    unfold mret, Hook_ret in *. rewrite IH. reflexivity.
Qed.

(** A client transform of a style file whose compilation succeeds. *)
Lemma transform_run (compile : Compiler) (code id : string) (s : State)
    (compiled : CompileResult) :
  cssFileFilter id = true ->
  compile (validIdOf id) (root (config s)) = Ok compiled ->
  let fragments :=
    extractCss (source compiled) (validIdOf id) (identOptionOf s) in
  transform compile code id false s
  = (Ok (Some (assembleSource (source compiled) (validIdOf id) (identOptionOf s)
                 ((fun fragment =>
                     importOf (virtualCssId s (stringifyFileScope fragment.1)))
                    <$> fragments))),
     (registerAll fragments s).1,
     (AddWatchFile <$> filter (fun file => watched s id file = true)
                              (watchFiles compiled))
     ++ (registerAll fragments s).2).
Proof.
  intros Hfilter Hcompile fragments. unfold transform.
  rewrite Hfilter. cbn [negb].
  unfold mbind at 1, Hook_bind at 1, get. cbv zeta iota beta.
  unfold mbind at 1, Hook_bind at 1, await. rewrite Hcompile.
  unfold mbind at 1, Hook_bind at 1. rewrite forOf_watch.
  unfold mbind at 1, Hook_bind at 1, processVanillaFile.
  unfold mbind at 1, Hook_bind at 1. rewrite mapM_serializeVirtualCssPath.
  fold fragments. cbn. rewrite !app_nil_r. reflexivity.
Qed.

End Transform.

(** ** The virtual module id, the update event and the registry *)
Section Claims.
Context {itg : Integration} {rt : Runtime}.

(** C5, amended.  The virtual module id emitted for a scope is exactly
    [virtual:vanilla-extract:<FlatScopeId><ext>], where [ext] is
    [.vanilla.js] when the command of the resolved configuration is [serve]
    and [.vanilla.css] otherwise, whatever hooks ran since
    [configResolved]; [resolveId] recognises the emitted id, and [load] cuts
    it with the same prefix and the same [ext], at the first occurrence of
    [ext]: it recovers the FlatScopeId when that occurrence is the emitted
    one. *)
Theorem virtualCssId_format (identifiers : option IdentifierOption)
    (resolvedConfig : ResolvedConfig) (calls : list HookCall)
    (fileScope : FileScope) (source : string) :
  let s := after (configResolved identifiers resolvedConfig) calls in
  let fileId := stringifyFileScope fileScope in
  let ext := match command resolvedConfig with
             | serve => ".vanilla.js"
             | build => ".vanilla.css"
             end in
  let id := "virtual:vanilla-extract:" +:+ fileId +:+ ext in
  result_of (serializeVirtualCssPath fileScope source s)
  = Ok ("import " +:+ dquote +:+ id +:+ dquote +:+ ";")
  /\ resolveId id = Some id
  /\ exists j,
       String.index 0 ext (fileId +:+ ext) = Some j
       /\ (j <= String.length fileId)%nat
       /\ fileScopeIdOf s id = String.substring 0 j fileId
       /\ (j = String.length fileId -> fileScopeIdOf s id = fileId).
Proof.
  intros s fileId ext id.
  assert (virtualExt s = ext) as Hext by apply virtualExt_fixed.
  split; [|split].
  - rewrite serializeVirtualCssPath_run. unfold result_of, virtualCssId. simpl.
    fold fileId. now rewrite Hext.
  - apply resolveId_indexOf, indexOf_zero. exists (fileId +:+ ext). reflexivity.
  - assert (exists e, virtualExt s = String "."%char e) as [e He].
    { rewrite Hext. unfold ext.
      destruct (command resolvedConfig); eexists; reflexivity. }
    unfold id. rewrite <- Hext.
    destruct (index_append fileId (virtualExt s)) as (j & Hj & Hle).
    exists j. split; [exact Hj|]. split; [exact Hle|].
    assert (fileScopeIdOf s (virtualPrefix +:+ fileId +:+ virtualExt s)
            = String.substring 0 j fileId) as Hcut.
    { destruct (fileScopeIdOf_found s e (fileId +:+ virtualExt s) j He Hj)
        as [_ ->].
      now apply substring_append. }
    split; [exact Hcut|]. intros ->.
    etransitivity; [exact Hcut | apply substring_all].
Qed.

(** The event name on both sides, as text: what the callback broadcasts
    carries the event of the scope and the new CSS, and the shim [load]
    returns with a dev server ends in a subscription written with the event
    name of the scope between single quotes, as it is. *)
Theorem styleUpdateEvent_wire (fileScope : FileScope) (source : string)
    (s0 s : State) (id text : string) :
  is_Some (server s) ->
  load id s = Ok (Some text) ->
  Forall (fun e =>
            match e with
            | WsSend event data =>
                event = "vanilla-extract-style-update:"
                          +:+ stringifyFileScope fileScope
                /\ data = source
            | _ => True
            end)
         (effects_of (serializeVirtualCssPath fileScope source s0))
  /\ exists before,
       text = before +:+ "import.meta.hot.on('"
                +:+ ("vanilla-extract-style-update:" +:+ fileScopeIdOf s id)
                +:+ "', (css) => {" +:+ nl
                +:+ "  inject(css);" +:+ nl
                +:+ "});   ".
Proof.
  intros [srv Hsrv] Hload. split.
  - rewrite serializeVirtualCssPath_run. unfold effects_of, hmrEffects. simpl.
    destruct (server s0) as [srv0|]; [|constructor].
    destruct (cssMap_has s0 _ && differs _ source); [|constructor].
    destruct (getModuleById srv0 _); repeat constructor.
  - unfold load in Hload.
    destruct (Js.indexOf id virtualPrefix =? 0); [|discriminate].
    cbv zeta in Hload.
    destruct (cssMap_get s (fileScopeIdOf s id)) as [css|]; [|discriminate].
    rewrite Hsrv in Hload.
    destruct (parseFileScope (fileScopeIdOf s id)) as [scope|]; [|discriminate].
    injection Hload as <-. rewrite outdent_shimTemplate.
    eexists. apply injectionShim_subscription.
Qed.

(** C8.  The registry only grows.  Registering a fragment overwrites the
    entry of its FlatScopeId with the new CSS, whatever was there; a client
    transform whose compilation succeeds does so for every fragment of the
    file, in order; and no hook call removes a key, so after any sequence
    of calls every key registered before is still registered. *)
Theorem cssMap_monotone :
  (forall (fileScope : FileScope) (source : string) (s : State),
     cssMap (state_of (serializeVirtualCssPath fileScope source s))
     = <[stringifyFileScope fileScope := source]> (cssMap s))
  /\ (forall (compile : Compiler) (code id : string) (s : State)
             (compiled : CompileResult),
        cssFileFilter id = true ->
        compile (validIdOf id) (root (config s)) = Ok compiled ->
        cssMap (state_of (transform compile code id false s))
        = foldl (fun m fragment =>
                   <[stringifyFileScope fragment.1 := fragment.2]> m)
                (cssMap s)
                (extractCss (source compiled) (validIdOf id) (identOptionOf s)))
  /\ (forall (c : HookCall) (s : State),
        dom (cssMap s) ⊆ dom (cssMap (call c s).1))
  /\ (forall (calls : list HookCall) (s : State),
        dom (cssMap s) ⊆ dom (cssMap (after s calls))).
Proof.
  split; [|split; [|split]].
  - intros fileScope source s. now rewrite serializeVirtualCssPath_run.
  - intros compile code id s compiled Hfilter Hcompile.
    rewrite (transform_run compile code id s compiled Hfilter Hcompile).
    apply registerAll_cssMap.
  - intros c s. apply extends_cssMap, call_extends.
  - intros calls s. apply extends_cssMap, after_extends.
Qed.

(** C9.  On an id the style-file filter rejects, [transform] returns [null]
    and changes nothing: the closure is the same, the host is not called,
    and the compiler is not consulted. *)
Theorem transform_other_file (compile : Compiler) (code id : string)
    (ssr : bool) (s : State) :
  cssFileFilter id = false ->
  transform compile code id ssr s = (Ok None, s, []).
Proof. intros Hfilter. unfold transform. now rewrite Hfilter. Qed.

(** What a client transform registers as watch targets: in a build, every
    file the compiler reports; in a dev server, every reported file that is
    not the id under transformation, and never that id. *)
Lemma transform_watch (compile : Compiler) (code id : string) (s : State)
    (compiled : CompileResult) (file : string) :
  cssFileFilter id = true ->
  compile (validIdOf id) (root (config s)) = Ok compiled ->
  AddWatchFile file ∈ effects_of (transform compile code id false s)
  <-> file ∈ watchFiles compiled
      /\ (command (config s) = build \/ file <> id).
Proof.
  intros Hfilter Hcompile.
  rewrite (transform_run compile code id s compiled Hfilter Hcompile).
  unfold effects_of. cbn [snd]. rewrite elem_of_app.
  assert (AddWatchFile file ∉ (registerAll
            (extractCss (source compiled) (validIdOf id) (identOptionOf s)) s).2)
    as Hno.
  { generalize (extractCss (source compiled) (validIdOf id) (identOptionOf s)).
    intros fragments. generalize s.
    induction fragments as [|fragment fragments IH]; intros s1.
    - apply not_elem_of_nil.
    - cbn [registerAll]. specialize (IH (setCss (stringifyFileScope fragment.1) fragment.2 s1)).
      destruct (registerAll fragments _) as [s' effects]. cbn [snd] in *.
      rewrite elem_of_app. intros [Hin|Hin]; [|contradiction].
      unfold hmrEffects in Hin.
      destruct (server s1) as [srv|]; [|inversion Hin].
      destruct (cssMap_has s1 _ && differs _ _); [|inversion Hin].
      destruct (getModuleById srv _); cbn [app] in Hin;
        repeat (apply elem_of_cons in Hin as [[=]|Hin]); inversion Hin. }
  rewrite list_elem_of_fmap. split.
  - intros [(file' & [= <-] & Hin)|Hin]; [|contradiction].
    apply list_elem_of_filter in Hin as [Hw Hin]. split; [exact Hin|].
    unfold watched, Js.strict_ne in Hw. apply orb_true_iff in Hw as [Hb|Hne].
    + left. destruct (command (config s)); [discriminate | reflexivity].
    + right. apply negb_true_iff, String.eqb_neq in Hne. exact Hne.
  - intros [Hin Hw]. left. exists file. split; [reflexivity|].
    apply list_elem_of_filter. split; [|exact Hin].
    unfold watched, Js.strict_ne. apply orb_true_iff.
    destruct Hw as [->|Hne]; [left; reflexivity | right].
    apply negb_true_iff, String.eqb_neq. exact Hne.
Qed.

(** With a query on the id, the file under transformation is not the id:
    when the compiler reports it, it is registered, dev server or not. *)
Lemma transform_watch_validId (compile : Compiler) (code id : string)
    (s : State) (compiled : CompileResult) :
  cssFileFilter id = true ->
  compile (validIdOf id) (root (config s)) = Ok compiled ->
  validIdOf id <> id ->
  validIdOf id ∈ watchFiles compiled ->
  AddWatchFile (validIdOf id) ∈ effects_of (transform compile code id false s).
Proof.
  intros Hfilter Hcompile Hquery Hin.
  apply (transform_watch compile code id s compiled); auto.
Qed.

End Claims.

(** ** The fragments of one file *)
Section Fragments.
Context {itg : Integration} {rt : Runtime}.

Lemma setCss_id (k v : string) (s : State) :
  cssMap s !! k = Some v -> setCss k v s = s.
Proof.
  intros Hk. destruct s as [ids cfg info srv m ext]. unfold setCss. simpl in *.
  f_equal. now apply insert_id.
Qed.

(** Registering fragments touches the registry and nothing else. *)
Lemma registerAll_frame (fragments : list (FileScope * string)) (s : State) :
  let s' := (registerAll fragments s).1 in
  identifiers s' = identifiers s /\ config s' = config s
  /\ packageInfo s' = packageInfo s /\ server s' = server s
  /\ virtualExt s' = virtualExt s.
Proof.
  revert s; induction fragments as [|fragment fragments IH]; intros s.
  - repeat split.
  - cbn [registerAll].
    specialize (IH (setCss (stringifyFileScope fragment.1) fragment.2 s)).
    destruct (registerAll fragments _) as [s' effects]. exact IH.
Qed.

Lemma foldl_insert_other (fragments : list (FileScope * string))
    (m : gmap string string) (k : string) :
  k ∉ fileIds fragments ->
  foldl (fun m fragment => <[stringifyFileScope fragment.1 := fragment.2]> m)
        m fragments !! k
  = m !! k.
Proof.
  revert m; induction fragments as [|fragment fragments IH]; intros m Hk.
  - reflexivity.
  - cbn [foldl]. unfold fileIds in Hk. rewrite fmap_cons in Hk.
    apply not_elem_of_cons in Hk as [Hne Hk].
    rewrite IH by exact Hk. now apply lookup_insert_ne.
Qed.

Lemma foldl_insert_member (fragments : list (FileScope * string))
    (m : gmap string string) (fileScope : FileScope) (css : string) :
  NoDup (fileIds fragments) ->
  (fileScope, css) ∈ fragments ->
  foldl (fun m fragment => <[stringifyFileScope fragment.1 := fragment.2]> m)
        m fragments !! stringifyFileScope fileScope
  = Some css.
Proof.
  revert m; induction fragments as [|fragment fragments IH]; intros m Hnd Hin.
  - inversion Hin.
  - unfold fileIds in Hnd. rewrite fmap_cons in Hnd.
    apply NoDup_cons in Hnd as [Hfresh Hnd].
    cbn [foldl]. apply elem_of_cons in Hin as [<-|Hin].
    + cbn [fst snd] in *.
      rewrite foldl_insert_other by exact Hfresh. apply lookup_insert_eq.
    + apply IH; assumption.
Qed.

(** Fragments the registry already holds leave the closure as it is. *)
Lemma registerAll_fixed (fragments : list (FileScope * string)) (s : State) :
  (forall fileScope css, (fileScope, css) ∈ fragments ->
     cssMap s !! stringifyFileScope fileScope = Some css) ->
  (registerAll fragments s).1 = s.
Proof.
  induction fragments as [|[fileScope css] fragments IH]; intros Hheld.
  - reflexivity.
  - cbn [registerAll fst snd].
    rewrite setCss_id by (apply Hheld; left).
    destruct (registerAll fragments s) as [s' effects] eqn:Hrun.
    cbn [fst] in *. apply IH. intros fileScope' css' Hin.
    apply Hheld. now right.
Qed.

Lemma hmrEffects_same_on (s1 s : State) (fileId source : string) :
  same_on [fileId] s1 s ->
  hmrEffects s1 fileId source = hmrEffects s fileId source.
Proof.
  intros (Hsrv & Hext & Hmap). specialize (Hmap fileId ltac:(left)).
  unfold hmrEffects, cssMap_has, cssMap_get, virtualCssId.
  now rewrite Hsrv, Hext, Hmap.
Qed.

(** With pairwise distinct scope ids, each fragment is judged against the
    registry as it was before the first of them was registered. *)
Lemma registerAll_effects (fragments : list (FileScope * string))
    (s1 s : State) :
  NoDup (fileIds fragments) ->
  same_on (fileIds fragments) s1 s ->
  (registerAll fragments s1).2
  = flat_map (fun fragment =>
                hmrEffects s (stringifyFileScope fragment.1) fragment.2)
             fragments.
Proof.
  revert s1; induction fragments as [|[fileScope css] fragments IH];
    intros s1 Hnd (Hsrv & Hext & Hmap).
  - reflexivity.
  - unfold fileIds in Hnd, Hmap. rewrite fmap_cons in Hnd, Hmap.
    apply NoDup_cons in Hnd as [Hfresh Hnd].
    cbn [registerAll flat_map fst snd].
    specialize (IH (setCss (stringifyFileScope fileScope) css s1) Hnd).
    destruct (registerAll fragments _) as [s' effects]. cbn [snd] in *.
    rewrite IH.
    + f_equal. apply hmrEffects_same_on. repeat split; try assumption.
      intros k Hk. apply Hmap. apply list_elem_of_singleton in Hk as ->. left.
    + repeat split; try assumption.
      intros k Hk. simpl. rewrite lookup_insert_ne.
      * apply Hmap. now right.
      * intros <-. contradiction.
Qed.

Lemma registerAll_no_server (fragments : list (FileScope * string))
    (s : State) :
  server s = None -> (registerAll fragments s).2 = [].
Proof.
  revert s; induction fragments as [|fragment fragments IH]; intros s Hsrv.
  - reflexivity.
  - cbn [registerAll].
    specialize (IH (setCss (stringifyFileScope fragment.1) fragment.2 s) Hsrv).
    destruct (registerAll fragments _) as [s' effects]. cbn [snd] in *.
    unfold hmrEffects. now rewrite Hsrv, IH.
Qed.

(** What the dev server can be told while a file is registered. *)
Lemma registerAll_effect (fragments : list (FileScope * string)) (s : State)
    (e : Effect) :
  e ∈ (registerAll fragments s).2 ->
  exists fileScope css srv,
    (fileScope, css) ∈ fragments /\ server s = Some srv
    /\ (e = WsSend (styleUpdateEvent (stringifyFileScope fileScope)) css
        \/ (e = InvalidateModule (virtualCssId s (stringifyFileScope fileScope))
            /\ virtualCssId s (stringifyFileScope fileScope) ∈ moduleGraph srv)).
Proof.
  revert s; induction fragments as [|[fileScope css] fragments IH]; intros s.
  - intros Hin. inversion Hin.
  - cbn [registerAll fst snd].
    specialize (IH (setCss (stringifyFileScope fileScope) css s)).
    destruct (registerAll fragments _) as [s' effects]. cbn [snd] in *.
    rewrite elem_of_app. intros [Hin|Hin].
    + exists fileScope, css. unfold hmrEffects in Hin.
      destruct (server s) as [srv|]; [|inversion Hin]. exists srv.
      split; [left|]. split; [reflexivity|].
      destruct (cssMap_has s _ && differs _ css); [|inversion Hin].
      unfold getModuleById in Hin.
      destruct (bool_decide_reflect
                  (virtualCssId s (stringifyFileScope fileScope) ∈ moduleGraph srv))
        as [Hcached|Hcached]; cbn [app] in Hin.
      * apply elem_of_cons in Hin as [->|Hin]; [right; split; auto|].
        apply list_elem_of_singleton in Hin as ->. now left.
      * apply list_elem_of_singleton in Hin as ->. now left.
    + destruct (IH Hin) as (fileScope' & css' & srv & Hfr & Hsrv & He).
      exists fileScope', css', srv. split; [now right|]. split; [exact Hsrv|].
      exact He.
Qed.

End Fragments.

(** ** More on [transform] *)
Section TransformMore.
Context {itg : Integration} {rt : Runtime}.

(** The four ways a transform can go. *)
Lemma transform_cases (compile : Compiler) (code id : string) (ssr : bool)
    (s : State) :
  (state_of (transform compile code id ssr s) = s
   /\ effects_of (transform compile code id ssr s) = [])
  \/ exists compiled,
       cssFileFilter id = true /\ ssr = false
       /\ compile (validIdOf id) (root (config s)) = Ok compiled.
Proof.
  unfold transform. destruct (cssFileFilter id) eqn:Hfilter; [|left; now split].
  destruct ssr; [left; now split|].
  destruct (compile (validIdOf id) (root (config s))) as [compiled|message]
    eqn:Hcompile.
  - right. exists compiled. auto.
  - left. cbn [negb]. unfold mbind, Hook_bind, get, await.
    rewrite Hcompile. now split.
Qed.

Lemma filter_watched_build (s : State) (id : string) (files : list string) :
  command (config s) = build ->
  filter (fun file => watched s id file = true) files = files.
Proof.
  intros Hbuild. induction files as [|file files IH]; [reflexivity|].
  rewrite filter_cons, IH. unfold watched. rewrite Hbuild.
  now rewrite decide_True by reflexivity.
Qed.

Lemma filter_watched_serve (s : State) (id : string) (files : list string) :
  command (config s) = serve ->
  filter (fun file => watched s id file = true) files
  = filter (fun file => file <> id) files.
Proof.
  intros Hserve. induction files as [|file files IH]; [reflexivity|].
  rewrite !filter_cons, IH. unfold watched, Js.strict_ne. rewrite Hserve.
  cbn [Command_eqb orb].
  destruct (String.eqb_spec file id) as [->|Hne].
  - rewrite decide_False by discriminate.
    now rewrite decide_False by (intros Hne; now apply Hne).
  - rewrite decide_True by reflexivity. now rewrite decide_True by exact Hne.
Qed.

(** X1.  In a server-rendering pass a style file is only tagged: the result
    is what [addFileScope] makes of the code and of the path of the file,
    query removed, relative to the package; the closure is unchanged, the
    host is not called and the compiler is not consulted. *)
Theorem transform_ssr_tags_only (compile : Compiler) (code id : string)
    (s : State) :
  cssFileFilter id = true ->
  transform compile code id true s
  = (Ok (Some (addFileScope code
                 (normalizePath
                    (path_relative (dirname (packageInfo s)) (validIdOf id)))
                 (packageInfo s))),
     s, []).
Proof. intros Hfilter. unfold transform. now rewrite Hfilter. Qed.

(** X2.  When the compiler fails on a style file, [transform] fails with
    the compiler's error; no watch target is registered, nothing is told to
    the dev server and the registry is as before. *)
Theorem transform_compile_error (compile : Compiler) (code id message : string)
    (s : State) :
  cssFileFilter id = true ->
  compile (validIdOf id) (root (config s)) = Throw message ->
  transform compile code id false s = (Throw message, s, []).
Proof.
  intros Hfilter Hcompile. unfold transform. rewrite Hfilter. cbn [negb].
  unfold mbind, Hook_bind, get, await. now rewrite Hcompile.
Qed.

(** X3.  Without a dev server, [transform] never invalidates a module and
    never broadcasts: whatever the input, every effect is a watch
    registration. *)
Theorem transform_without_server (compile : Compiler) (code id : string)
    (ssr : bool) (s : State) :
  server s = None ->
  Forall isWatch (effects_of (transform compile code id ssr s)).
Proof.
  intros Hsrv.
  destruct (transform_cases compile code id ssr s)
    as [[_ ->]|(compiled & Hfilter & -> & Hcompile)]; [constructor|].
  rewrite (transform_run compile code id s compiled Hfilter Hcompile).
  unfold effects_of. cbn [snd].
  rewrite registerAll_no_server by exact Hsrv. rewrite app_nil_r.
  apply Forall_fmap, Forall_forall. intros file _. exact I.
Qed.

(** X4.  A client transform that compiles registers its watch targets
    before it tells the dev server anything, once per reported path and in
    the compiler's order: all of them in a build, those that are not the id
    in a dev server. *)
Theorem transform_watches_first (compile : Compiler) (code id : string)
    (s : State) (compiled : CompileResult) :
  cssFileFilter id = true ->
  compile (validIdOf id) (root (config s)) = Ok compiled ->
  exists messages,
    effects_of (transform compile code id false s)
    = (AddWatchFile <$>
         match command (config s) with
         | build => watchFiles compiled
         | serve => filter (fun file => file <> id) (watchFiles compiled)
         end)
      ++ messages
    /\ Forall (fun e => ~ isWatch e) messages.
Proof.
  intros Hfilter Hcompile.
  rewrite (transform_run compile code id s compiled Hfilter Hcompile).
  unfold effects_of. cbn [snd]. eexists. split.
  - f_equal. f_equal. destruct (command (config s)) eqn:Hcommand.
    + now apply filter_watched_serve.
    + now apply filter_watched_build.
  - apply Forall_forall. intros e He.
    apply registerAll_effect in He
      as (fileScope & css & srv & _ & _ & [->|[-> _]]); intros [].
Qed.

(** X5.  In a dev server the id under transformation is never registered
    as a watch target, whatever the compiler reports; when the id carries
    no query, this is the file that is compiled. *)
Theorem transform_serve_skips_id (compile : Compiler) (code id : string)
    (ssr : bool) (s : State) :
  command (config s) = serve ->
  (AddWatchFile id ∉ effects_of (transform compile code id ssr s))
  /\ (Js.indexOf id "?" = -1 ->
      AddWatchFile (validIdOf id)
        ∉ effects_of (transform compile code id ssr s)).
Proof.
  intros Hserve.
  assert (AddWatchFile id ∉ effects_of (transform compile code id ssr s))
    as Hskip.
  { destruct (transform_cases compile code id ssr s)
      as [[_ ->]|(compiled & Hfilter & -> & Hcompile)];
      [apply not_elem_of_nil|].
    intros Hin.
    apply (transform_watch compile code id s compiled id Hfilter Hcompile)
      in Hin as [_ [Hbuild|Hne]]; [congruence | now apply Hne]. }
  split; [exact Hskip|].
  intros Hquery. unfold validIdOf. now rewrite Hquery.
Qed.

End TransformMore.

(** ** The registry across a transform *)
Section RegistryMore.
Context {itg : Integration} {rt : Runtime}.

(** X6.  A transform changes the registry only at the scope ids of the
    file it compiles: the CSS of every other scope is what it was. *)
Theorem transform_keeps_other_scopes (compile : Compiler) (code id : string)
    (s : State) (compiled : CompileResult) (k : string) :
  cssFileFilter id = true ->
  compile (validIdOf id) (root (config s)) = Ok compiled ->
  k ∉ fileIds (fragmentsOf s id compiled) ->
  cssMap (state_of (transform compile code id false s)) !! k = cssMap s !! k.
Proof.
  intros Hfilter Hcompile Hk.
  rewrite (transform_run compile code id s compiled Hfilter Hcompile).
  unfold state_of. cbn [fst snd]. rewrite registerAll_cssMap.
  now apply foldl_insert_other.
Qed.

(** X7.  After a client transform that compiles a file whose fragments have
    pairwise distinct scope ids, the registry holds, for each fragment, the
    CSS of that fragment. *)
Theorem transform_registers_fragments (compile : Compiler) (code id : string)
    (s : State) (compiled : CompileResult) (fileScope : FileScope)
    (css : string) :
  cssFileFilter id = true ->
  compile (validIdOf id) (root (config s)) = Ok compiled ->
  NoDup (fileIds (fragmentsOf s id compiled)) ->
  (fileScope, css) ∈ fragmentsOf s id compiled ->
  cssMap (state_of (transform compile code id false s))
    !! stringifyFileScope fileScope
  = Some css.
Proof.
  intros Hfilter Hcompile Hnd Hin.
  rewrite (transform_run compile code id s compiled Hfilter Hcompile).
  unfold state_of. cbn [fst snd]. rewrite registerAll_cssMap.
  now apply foldl_insert_member.
Qed.

(** X8.  With pairwise distinct scope ids in the file, what a transform
    tells the dev server about a fragment depends on the registry as it was
    before the transform only: the messages are, fragment after fragment,
    those of the callback run on the closure the transform started from. *)
Theorem transform_messages (compile : Compiler) (code id : string)
    (s : State) (compiled : CompileResult) :
  cssFileFilter id = true ->
  compile (validIdOf id) (root (config s)) = Ok compiled ->
  NoDup (fileIds (fragmentsOf s id compiled)) ->
  effects_of (transform compile code id false s)
  = (AddWatchFile <$> filter (fun file => watched s id file = true)
                             (watchFiles compiled))
    ++ flat_map (fun fragment =>
                   effects_of (serializeVirtualCssPath fragment.1 fragment.2 s))
                (fragmentsOf s id compiled).
Proof.
  intros Hfilter Hcompile Hnd.
  rewrite (transform_run compile code id s compiled Hfilter Hcompile).
  unfold effects_of at 1. cbn [snd]. f_equal.
  fold (fragmentsOf s id compiled).
  rewrite (registerAll_effects _ s s Hnd) by (repeat split).
  apply flat_map_ext. intros [fileScope css].
  now rewrite serializeVirtualCssPath_run.
Qed.

Lemma flat_map_nil {A B} (f : A -> list B) (l : list A) :
  (forall x, x ∈ l -> f x = []) -> flat_map f l = [].
Proof.
  induction l as [|x l IH]; intros Hf; [reflexivity|].
  cbn [flat_map]. rewrite (Hf x) by left. apply IH.
  intros y Hy. apply Hf. now right.
Qed.

(** X9.  Compiling an unchanged file again is silent: when the compiler
    answers as before and the scope ids of the file are pairwise distinct,
    the second transform returns the same JavaScript, leaves the closure as
    the first left it, and only registers the watch targets again. *)
Theorem transform_again_silent (compile : Compiler) (code code' id : string)
    (s : State) (compiled : CompileResult) :
  cssFileFilter id = true ->
  compile (validIdOf id) (root (config s)) = Ok compiled ->
  NoDup (fileIds (fragmentsOf s id compiled)) ->
  let first := transform compile code id false s in
  transform compile code' id false (state_of first)
  = (result_of first, state_of first,
     AddWatchFile <$> filter (fun file => watched s id file = true)
                             (watchFiles compiled)).
Proof.
  intros Hfilter Hcompile Hnd first. unfold first.
  rewrite (transform_run compile code id s compiled Hfilter Hcompile).
  unfold state_of, result_of. cbn [fst snd].
  fold (fragmentsOf s id compiled).
  set (fragments := fragmentsOf s id compiled) in *.
  destruct (registerAll_frame fragments s)
    as (Hids & Hcfg & Hinfo & Hsrv & Hext).
  set (s' := (registerAll fragments s).1) in *.
  assert (fragmentsOf s' id compiled = fragments) as Hsame.
  { unfold fragments, fragmentsOf, identOptionOf. now rewrite Hids, Hcfg. }
  assert (forall fileScope css, (fileScope, css) ∈ fragments ->
            cssMap s' !! stringifyFileScope fileScope = Some css) as Hheld.
  { intros fileScope css Hin. unfold s'. rewrite registerAll_cssMap.
    now apply foldl_insert_member. }
  rewrite (transform_run compile code' id s' compiled Hfilter)
    by (now rewrite Hcfg).
  fold (fragmentsOf s' id compiled). rewrite Hsame.
  rewrite (registerAll_fixed fragments s' Hheld).
  rewrite (registerAll_effects fragments s' s' Hnd) by (repeat split).
  replace (flat_map _ fragments) with (@nil Effect).
  - rewrite app_nil_r. unfold watched, virtualCssId, identOptionOf.
    rewrite Hcfg, Hext, Hids. reflexivity.
  - symmetry. apply flat_map_nil.
    intros [fileScope css] Hin. cbn [fst snd].
    unfold hmrEffects, cssMap_get, differs, Js.strict_ne.
    rewrite (Hheld fileScope css Hin), String.eqb_refl, andb_false_r.
    now destruct (server s').
Qed.

(** X10.  Whatever a client transform that compiles tells its host is one
    of three things: the registration of a path the compiler reported; the
    broadcast, for a fragment of the file, of that fragment's CSS on that
    scope's event; or the invalidation of the virtual module of a fragment
    of the file, which the attached server holds in its module graph. *)
Theorem transform_effect_kinds (compile : Compiler) (code id : string)
    (s : State) (compiled : CompileResult) (e : Effect) :
  cssFileFilter id = true ->
  compile (validIdOf id) (root (config s)) = Ok compiled ->
  e ∈ effects_of (transform compile code id false s) ->
  (exists file, file ∈ watchFiles compiled /\ e = AddWatchFile file)
  \/ exists fileScope css srv,
       (fileScope, css) ∈ fragmentsOf s id compiled
       /\ server s = Some srv
       /\ (e = WsSend (styleUpdateEvent (stringifyFileScope fileScope)) css
           \/ (e = InvalidateModule
                     (virtualCssId s (stringifyFileScope fileScope))
               /\ virtualCssId s (stringifyFileScope fileScope)
                    ∈ moduleGraph srv)).
Proof.
  intros Hfilter Hcompile.
  rewrite (transform_run compile code id s compiled Hfilter Hcompile).
  unfold effects_of. cbn [snd]. rewrite elem_of_app. intros [Hin|Hin].
  - left. apply list_elem_of_fmap in Hin as (file & -> & Hin).
    apply list_elem_of_filter in Hin as [_ Hin]. eauto.
  - right. now apply registerAll_effect.
Qed.

End RegistryMore.

(** ** More on ids *)
Section IdsMore.
Context {itg : Integration} {rt : Runtime}.

Lemma index_char_split (c : ascii) (s : string) (j : nat) :
  String.index 0 (String c "") s = Some j ->
  String.index 0 (String c "") (String.substring 0 j s) = None
  /\ exists rest, s = String.substring 0 j s +:+ String c rest.
Proof.
  revert j; induction s as [|d s IH]; intros j; [discriminate|].
  rewrite index_cons.
  destruct (String.prefix (String c "") (String d s)) eqn:Hprefix.
  - intros [= <-]. split; [reflexivity|]. exists s. cbn in Hprefix.
    destruct (ascii_dec c d) as [->|]; [reflexivity | discriminate].
  - destruct (String.index 0 (String c "") s) as [j'|]; [|discriminate].
    intros [= <-]. destruct (IH j' eq_refl) as (Hnone & rest & Hrest).
    cbn [String.substring]. split.
    + rewrite index_cons, Hnone.
      cbn in Hprefix |- *. destruct (ascii_dec c d); [|reflexivity].
      destruct s; discriminate.
    + exists rest. rewrite append_cons. now rewrite <- Hrest.
Qed.

Lemma append_cancel_l (p a b : string) : p +:+ a = p +:+ b -> a = b.
Proof.
  induction p as [|c p IH]; [auto|].
  rewrite !append_cons. intros [= Heq]. auto.
Qed.

Lemma append_cancel_r (e a b : string) : a +:+ e = b +:+ e -> a = b.
Proof.
  revert b; induction a as [|c a IH]; intros b Heq.
  - pose proof (f_equal String.length Heq) as Hlen.
    rewrite !append_length in Hlen. destruct b; [reflexivity|].
    simpl in Hlen. lia.
  - destruct b as [|d b].
    + pose proof (f_equal String.length Heq) as Hlen.
      rewrite !append_length in Hlen. simpl in Hlen. lia.
    + rewrite !append_cons in Heq. injection Heq as -> Heq.
      f_equal. now apply IH.
Qed.

Lemma substring_length (s : string) (j : nat) :
  (j <= String.length s)%nat -> String.length (String.substring 0 j s) = j.
Proof.
  revert j; induction s as [|c s IH]; intros j Hj.
  - simpl in Hj. replace j with O by lia. reflexivity.
  - destruct j as [|j]; [reflexivity|]. simpl in *. rewrite IH; lia.
Qed.

(** X11.  [validId] is the id cut before its first question mark: the id
    is [validId] followed by nothing or by a query that opens with a
    question mark, [validId] holds no question mark, and cutting twice is
    cutting once. *)
Theorem validIdOf_strips_query (id : string) :
  (exists query,
     id = validIdOf id +:+ query
     /\ (query = "" \/ exists rest, query = "?" +:+ rest))
  /\ Js.indexOf (validIdOf id) "?" = -1
  /\ validIdOf (validIdOf id) = validIdOf id.
Proof.
  assert (forall v, Js.indexOf v "?" = -1 -> validIdOf v = v) as Hnoquery.
  { intros v Hv. unfold validIdOf. now rewrite Hv. }
  destruct (String.index 0 "?" id) as [j|] eqn:Hj.
  - assert (validIdOf id = String.substring 0 j id) as ->.
    { unfold validIdOf, Js.indexOf. rewrite Hj.
      destruct (Z.eqb_spec (Z.of_nat j) (-1)); [lia|].
      unfold Js.substring0, Js.length. apply index_bound in Hj.
      f_equal. lia. }
    destruct (index_char_split _ _ _ Hj) as (Hnone & rest & Hrest).
    assert (Js.indexOf (String.substring 0 j id) "?" = -1) as Hcut
      by (unfold Js.indexOf; now rewrite Hnone).
    split; [|split; [exact Hcut | now apply Hnoquery]].
    exists ("?" +:+ rest). split; [exact Hrest | right; now exists rest].
  - assert (Js.indexOf id "?" = -1) as Hid
      by (unfold Js.indexOf; now rewrite Hj).
    rewrite (Hnoquery id Hid).
    split; [|split; [exact Hid | now apply Hnoquery]].
    exists "". split; [now rewrite append_nil_r | now left].
Qed.

(** X12.  Two scope ids never share a virtual module id nor an update
    event: both are one-to-one in the scope id. *)
Theorem scope_ids_do_not_collide (s : State) (fileId1 fileId2 : string) :
  (virtualCssId s fileId1 = virtualCssId s fileId2 <-> fileId1 = fileId2)
  /\ (styleUpdateEvent fileId1 = styleUpdateEvent fileId2
      <-> fileId1 = fileId2).
Proof.
  split; (split; [|now intros ->]).
  - unfold virtualCssId. intros Heq%append_cancel_l.
    now apply append_cancel_r in Heq.
  - unfold styleUpdateEvent. now intros Heq%append_cancel_l.
Qed.

(** X13.  [load] answers [null] exactly on the ids [resolveId] does not
    own; on an id it owns it returns a content or throws. *)
Theorem load_null_iff_not_owned (s : State) (id : string) :
  load id s = Ok None <-> resolveId id = None.
Proof.
  unfold load, resolveId.
  destruct (Js.indexOf id virtualPrefix =? 0); [|split; reflexivity].
  cbv zeta. split; [|discriminate].
  destruct (cssMap_get s (fileScopeIdOf s id)); [|discriminate].
  destruct (server s); [|discriminate].
  destruct (parseFileScope (fileScopeIdOf s id)); discriminate.
Qed.

End IdsMore.

(** ** Emitting an id and loading it; the closure over a session *)
Section SessionMore.
Context {itg : Integration} {rt : Runtime}.

Lemma virtualExt_dot (identifiers : option IdentifierOption)
    (resolvedConfig : ResolvedConfig) (calls : list HookCall) :
  exists e,
    virtualExt (after (configResolved identifiers resolvedConfig) calls)
    = String "."%char e.
Proof.
  rewrite virtualExt_fixed.
  destruct (command resolvedConfig); eexists; reflexivity.
Qed.

(** X14.  [load] recovers the scope id from the id emitted for it exactly
    when the extension does not occur in the scope id followed by the
    extension before the place where it was appended: a scope id that
    itself holds the extension is cut short. *)
Theorem emitted_id_round_trip (identifiers : option IdentifierOption)
    (resolvedConfig : ResolvedConfig) (calls : list HookCall)
    (fileId : string) :
  let s := after (configResolved identifiers resolvedConfig) calls in
  fileScopeIdOf s (virtualCssId s fileId) = fileId
  <-> String.index 0 (virtualExt s) (fileId +:+ virtualExt s)
      = Some (String.length fileId).
Proof.
  intros s. destruct (virtualExt_dot identifiers resolvedConfig calls)
    as [e He]. fold s in He.
  destruct (index_append fileId (virtualExt s)) as (j & Hj & Hle).
  destruct (fileScopeIdOf_found s e (fileId +:+ virtualExt s) j He Hj)
    as [_ Hcut].
  rewrite substring_append in Hcut by exact Hle.
  unfold virtualCssId. rewrite Hcut, Hj. split.
  - intros Heq. pose proof (substring_length fileId j Hle) as Hlen.
    rewrite Heq in Hlen. now rewrite Hlen.
  - intros [= ->]. apply substring_all.
Qed.




(** X16.  In a closure reached from [configResolved] by hook calls, the
    only error [load] raises is the lookup error: if it throws, the scope
    id it cut out of the id is not in the registry and the message names
    it. *)
Theorem load_only_lookup_error (identifiers : option IdentifierOption)
    (resolvedConfig : ResolvedConfig) (calls : list HookCall)
    (id message : string) :
  let s := after (configResolved identifiers resolvedConfig) calls in
  load id s = Throw message ->
  cssMap s !! fileScopeIdOf s id = None
  /\ message
     = "Unable to locate " +:+ fileScopeIdOf s id +:+ " in the CSS map.".
Proof.
  intros s. unfold load, cssMap_get.
  destruct (Js.indexOf id virtualPrefix =? 0); [|discriminate].
  cbv zeta.
  destruct (cssMap s !! fileScopeIdOf s id) as [css|] eqn:Hcss.
  - destruct (server s); [|discriminate].
    destruct (encoded_parses s _ _
                (after_encoded calls _ (configResolved_encoded _ _)) Hcss)
      as (fileScope & _ & ->).
    discriminate.
  - intros [= <-]. now split.
Qed.

(** X17.  Every key of the registry is the encoding of a scope: in a
    closure reached from [configResolved] by hook calls, a registered scope
    id is [stringifyFileScope] of some scope. *)
Theorem registry_keys_are_scope_ids (identifiers : option IdentifierOption)
    (resolvedConfig : ResolvedConfig) (calls : list HookCall)
    (k css : string) :
  cssMap (after (configResolved identifiers resolvedConfig) calls) !! k
  = Some css ->
  exists fileScope, stringifyFileScope fileScope = k.
Proof.
  intros Hk.
  apply (after_encoded calls _
           (configResolved_encoded identifiers resolvedConfig) k).
  eauto.
Qed.

Lemma call_server (c : HookCall) (s : State) :
  server (call c s).1
  = match c with
    | CallConfigureServer _server => Some _server
    | _ => server s
    end.
Proof.
  destruct c as [srv|id|id|compile code id ssr]; try reflexivity.
  cbn [call].
  destruct (transform_cases compile code id ssr s)
    as [[Hstate _]|(compiled & Hfilter & -> & Hcompile)].
  - unfold state_of in Hstate.
    destruct (transform compile code id ssr s) as [[r s'] effects].
    cbn [fst snd] in *. now rewrite Hstate.
  - rewrite (transform_run compile code id s compiled Hfilter Hcompile).
    cbn [fst snd]. apply registerAll_frame.
Qed.

Lemma serversOf_cons (c : HookCall) (calls : list HookCall) :
  serversOf (c :: calls)
  = match c with
    | CallConfigureServer _server => _server :: serversOf calls
    | _ => serversOf calls
    end.
Proof. destruct c; reflexivity. Qed.

Lemma after_server (calls : list HookCall) (s0 : State) :
  server (after s0 calls)
  = match last (serversOf calls) with
    | Some srv => Some srv
    | None => server s0
    end.
Proof.
  revert s0; induction calls as [|c calls IH]; intros s0; [reflexivity|].
  cbn [after foldl]. fold (after (call c s0).1 calls).
  rewrite IH, call_server, serversOf_cons.
  destruct c; try reflexivity.
  rewrite last_cons. now destruct (last (serversOf calls)).
Qed.

(** X18.  What [configResolved] set stays, and the server is the one last
    handed to [configureServer]: after any sequence of hook calls the
    configuration, the options and the package information are those of
    [configResolved], and the closure holds the most recent server of the
    sequence, or none if the sequence attached none. *)
Theorem closure_after_calls (options : option IdentifierOption)
    (resolvedConfig : ResolvedConfig) (calls : list HookCall) :
  let s := after (configResolved options resolvedConfig) calls in
  config s = resolvedConfig
  /\ identifiers s = options
  /\ packageInfo s = getPackageInfo (root resolvedConfig)
  /\ server s = last (serversOf calls).
Proof.
  intros s. pose proof (after_extends calls
                          (configResolved options resolvedConfig)) as Hext.
  fold s in Hext. destruct Hext as [Hids Hcfg Hinfo _ _ _].
  split; [exact Hcfg|]. split; [exact Hids|]. split; [exact Hinfo|].
  unfold s. rewrite after_server. now destruct (last (serversOf calls)).
Qed.

End SessionMore.

(** ** One change among the fragments of a file *)
Section ChangeDetection.
Context {itg : Integration} {rt : Runtime}.

(** X19.  When a dev server is attached and a recompiled file, whose scope
    ids are pairwise distinct, changes the CSS of one fragment and of no
    other, the transform tells the dev server about that scope only: after
    the watch registrations come the invalidation of that scope's cached
    virtual module, if there is one, and one broadcast of the new CSS. *)
Theorem transform_one_change (compile : Compiler) (code id : string)
    (s : State) (compiled : CompileResult)
    (unchanged unchanged' : list (FileScope * string))
    (fileScope : FileScope) (css old : string) :
  cssFileFilter id = true ->
  compile (validIdOf id) (root (config s)) = Ok compiled ->
  fragmentsOf s id compiled = unchanged ++ (fileScope, css) :: unchanged' ->
  NoDup (fileIds (fragmentsOf s id compiled)) ->
  (forall fileScope' css',
     (fileScope', css') ∈ unchanged ++ unchanged' ->
     cssMap s !! stringifyFileScope fileScope' = Some css') ->
  is_Some (server s) ->
  cssMap s !! stringifyFileScope fileScope = Some old ->
  old <> css ->
  effects_of (transform compile code id false s)
  = (AddWatchFile <$> filter (fun file => watched s id file = true)
                             (watchFiles compiled))
    ++ (InvalidateModule <$> cachedModule s (stringifyFileScope fileScope))
    ++ [WsSend (styleUpdateEvent (stringifyFileScope fileScope)) css].
Proof.
  intros Hfilter Hcompile Hsplit Hnd Hheld [srv Hsrv] Hold Hne.
  rewrite (transform_run compile code id s compiled Hfilter Hcompile).
  unfold effects_of. cbn [snd]. f_equal.
  fold (fragmentsOf s id compiled).
  rewrite (registerAll_effects _ s s Hnd) by (repeat split).
  rewrite Hsplit, flat_map_app. cbn [flat_map fst snd].
  assert (forall l, (forall fileScope' css', (fileScope', css') ∈ l ->
                       cssMap s !! stringifyFileScope fileScope' = Some css') ->
            flat_map (fun fragment =>
                        hmrEffects s (stringifyFileScope fragment.1) fragment.2)
                     l = []) as Hsilent.
  { intros l Hl. apply flat_map_nil. intros [fileScope' css'] Hin.
    cbn [fst snd]. unfold hmrEffects, cssMap_get, differs, Js.strict_ne.
    rewrite (Hl fileScope' css' Hin), String.eqb_refl, andb_false_r.
    now destruct (server s). }
  rewrite !Hsilent
    by (intros fileScope' css' Hin; apply Hheld, elem_of_app; auto).
  rewrite app_nil_r. cbn [app].
  unfold hmrEffects, cachedModule, cssMap_has, cssMap_get, differs,
    Js.strict_ne.
  rewrite Hsrv, Hold. rewrite bool_decide_eq_true_2 by eauto.
  apply String.eqb_neq in Hne. rewrite Hne. cbn [negb andb].
  now destruct (getModuleById srv _).
Qed.

End ChangeDetection.

(** ** The event name as JavaScript reads it *)
Section Literal.
Context {itg : Integration} {rt : Runtime}.

Lemma plain_append (a b : string) :
  JsLiteral.plain (a +:+ b) = JsLiteral.plain a && JsLiteral.plain b.
Proof.
  induction a as [|c a IH]; [reflexivity|].
  rewrite append_cons. cbn [JsLiteral.plain]. rewrite IH.
  now rewrite !andb_assoc.
Qed.

(** A plain text between the quotes is the value of the literal. *)
Lemma readSingleQuoted_plain (value rest : string) :
  JsLiteral.plain value = true ->
  JsLiteral.readSingleQuoted (value +:+ String JsLiteral.quote rest)
  = Some (value, rest).
Proof.
  induction value as [|c value IH]; intros Hplain.
  - reflexivity.
  - cbn [JsLiteral.plain] in Hplain.
    apply andb_true_iff in Hplain as [Hc Hplain].
    apply andb_true_iff in Hc as [Hc Hline].
    apply andb_true_iff in Hc as [Hquote Hback].
    apply negb_true_iff in Hquote, Hback, Hline.
    rewrite append_cons. cbn [JsLiteral.readSingleQuoted].
    now rewrite Hquote, Hline, Hback, IH.
Qed.

(** Where the scope id is plain, the shim subscribes to the event that is
    broadcast: the literal that opens the subscription reads as the event
    name of the scope and is followed by the handler. *)
Lemma shim_subscription_plain (scopeJson cssJson fileId : string) :
  JsLiteral.plain fileId = true ->
  exists tail,
    injectionShim scopeJson cssJson (styleUpdateEvent fileId)
    = shimHead scopeJson cssJson +:+ "import.meta.hot.on('" +:+ tail
    /\ JsLiteral.readSingleQuoted tail
       = Some (styleUpdateEvent fileId,
               ", (css) => {" +:+ nl +:+ "  inject(css);" +:+ nl +:+ "});   ").
Proof.
  intros Hplain. eexists. split; [apply injectionShim_subscription|].
  apply (readSingleQuoted_plain (styleUpdateEvent fileId)).
  unfold styleUpdateEvent. rewrite plain_append, Hplain. reflexivity.
Qed.

(** Where the scope id holds a quote, it does not: the literal closes at
    the first quote of the scope id, reads as the event name of what stands
    before it, and is followed by the rest of the scope id. *)
Lemma shim_subscription_quoted (scopeJson cssJson before behind : string) :
  JsLiteral.plain before = true ->
  let fileId := before +:+ String JsLiteral.quote behind in
  exists tail,
    injectionShim scopeJson cssJson (styleUpdateEvent fileId)
    = shimHead scopeJson cssJson +:+ "import.meta.hot.on('" +:+ tail
    /\ JsLiteral.readSingleQuoted tail
       = Some (styleUpdateEvent before,
               behind +:+ "', (css) => {" +:+ nl
                 +:+ "  inject(css);" +:+ nl +:+ "});   ")
    /\ styleUpdateEvent before <> styleUpdateEvent fileId.
Proof.
  intros Hplain fileId. eexists. split; [apply injectionShim_subscription|].
  split.
  - unfold fileId, styleUpdateEvent.
    rewrite <- (append_assoc "vanilla-extract-style-update:" before).
    rewrite (append_assoc _ (String JsLiteral.quote behind)).
    rewrite append_cons.
    apply (readSingleQuoted_plain
             ("vanilla-extract-style-update:" +:+ before)).
    rewrite plain_append, Hplain. reflexivity.
  - unfold fileId, styleUpdateEvent. intros Heq.
    pose proof (f_equal String.length Heq) as Hlen.
    rewrite !append_length in Hlen. simpl in Hlen. lia.
Qed.

End Literal.

(** ** The plugin at work on the concrete project *)
Import Demo.

(** A recompile that changes the CSS invalidates and broadcasts once; one
    that does not, and a first compile, tell the dev server nothing. *)
Example recompile_changed :
  effects_of (serializeVirtualCssPath (theme : FileScope) ".a{color:blue}" devState)
  = [InvalidateModule themeDevId;
     WsSend "vanilla-extract-style-update:/app/src/theme.css.ts" ".a{color:blue}"].
Proof. vm_compute. reflexivity. Qed.

Example recompile_unchanged :
  effects_of (serializeVirtualCssPath (theme : FileScope) ".a{color:red}" devState)
  = [].
Proof. vm_compute. reflexivity. Qed.

Example first_compile :
  effects_of (serializeVirtualCssPath ("/app/src/other.css.ts" : FileScope)
                ".b{}" devState)
  = [].
Proof. vm_compute. reflexivity. Qed.

Lemma load_registered_witness :
  load themeBuildId buildState = Ok (Some ".a{color:red}")
  /\ exists fileScope : FileScope,
       parseFileScope (fileScopeIdOf devState themeDevId) = Ok fileScope
       /\ load themeDevId devState
          = Ok (Some (injectionShim (JSON_stringify_scope fileScope)
                        (JSON_stringify ".a{color:red}")
                        (styleUpdateEvent (fileScopeIdOf devState themeDevId)))).
Proof.
  split.
  - pose proof (load_registered None buildConfig
                  [CallTransform compileRed "" theme false]
                  themeBuildId ".a{color:red}") as W.
    cbv zeta in W. apply W; vm_compute; reflexivity.
  - pose proof (load_registered None devConfig devSession
                  themeDevId ".a{color:red}") as W.
    cbv zeta in W. apply W; vm_compute; reflexivity.
Defined.

Lemma load_unregistered_witness :
  load "virtual:vanilla-extract:/app/src/gone.css.ts.vanilla.js" devState
  = Throw "Unable to locate /app/src/gone.css.ts in the CSS map."
  /\ forall content,
       load "virtual:vanilla-extract:/app/src/gone.css.ts.vanilla.js" devState
       <> Ok content.
Proof.
  apply (load_unregistered devState
           "virtual:vanilla-extract:/app/src/gone.css.ts.vanilla.js");
    vm_compute; reflexivity.
Defined.

Lemma styleUpdateEvent_wire_witness :
  Forall (fun e =>
            match e with
            | WsSend event data =>
                event = "vanilla-extract-style-update:/app/src/theme.css.ts"
                /\ data = ".a{color:blue}"
            | _ => True
            end)
         (effects_of (serializeVirtualCssPath (theme : FileScope)
                        ".a{color:blue}" devState))
  /\ exists before,
       injectionShim (JSON_stringify_scope (theme : FileScope))
         (JSON_stringify ".a{color:red}") (styleUpdateEvent theme)
       = before +:+ "import.meta.hot.on('"
           +:+ ("vanilla-extract-style-update:"
                  +:+ fileScopeIdOf devState themeDevId)
           +:+ "', (css) => {" +:+ nl
           +:+ "  inject(css);" +:+ nl
           +:+ "});   ".
Proof.
  apply (styleUpdateEvent_wire (itg := integration) (rt := runtime)
           theme ".a{color:blue}" devState devState themeDevId).
  - exists devServer. vm_compute. reflexivity.
  - vm_compute. reflexivity.
Defined.

Lemma cssMap_monotone_witness :
  cssMap (state_of (transform compileBlue "" theme false devState))
  = <[theme := ".a{color:blue}"]> (cssMap devState)
  /\ dom (cssMap devState)
     ⊆ dom (cssMap (after devState
                      [CallLoad themeDevId;
                       CallTransform compileBlue "" theme false;
                       CallResolveId themeDevId])).
Proof.
  destruct (cssMap_monotone (itg := integration) (rt := runtime))
    as (_ & Htransform & _ & Hafter).
  split.
  - apply (Htransform compileBlue "" theme devState
             {| source := ".a{color:blue}";
                watchFiles := [theme; "/app/src/vars.css.ts"] |});
      vm_compute; reflexivity.
  - apply Hafter.
Defined.

Lemma transform_other_file_witness :
  transform compileRed "" "/app/src/main.ts" false devState
  = (Ok None, devState, []).
Proof.
  apply (transform_other_file compileRed "" "/app/src/main.ts" false devState).
  vm_compute. reflexivity.
Defined.

(** C5, as stated, fails: the id a build emits for the theme ends in
    [.vanilla.css], not in [.css], and the one a dev server emits ends in
    [.vanilla.js], not in [.js]. *)
Lemma virtualCssId_format_counterexample :
  result_of (serializeVirtualCssPath (theme : FileScope) ".a{color:red}" buildState)
  = Ok (importOf themeBuildId)
  /\ themeBuildId <> specVirtualId buildState theme
  /\ result_of (serializeVirtualCssPath (theme : FileScope) ".a{color:red}" devState)
     = Ok (importOf themeDevId)
  /\ themeDevId <> specVirtualId devState theme.
Proof.
  split; [vm_compute; reflexivity|].
  split; [vm_compute; discriminate|].
  split; [vm_compute; reflexivity|].
  vm_compute; discriminate.
Qed.

(** C4 on the code.  In a dev server, the theme is requested with the query
    [?used]: the filter accepts the id, the file compiled is the theme, the
    compiler reports the theme and the file it imports, and both are
    registered as watch targets, the theme itself included. *)
Theorem transform_rewatches_itself :
  let id := theme +:+ "?used" in
  cssFileFilter id = true
  /\ validIdOf id = theme
  /\ command (config devState) = serve
  /\ compileBlue (validIdOf id) (root (config devState))
     = Ok {| source := ".a{color:blue}";
             watchFiles := [theme; "/app/src/vars.css.ts"] |}
  /\ effects_of (transform compileBlue "" id false devState)
     = [AddWatchFile theme;
        AddWatchFile "/app/src/vars.css.ts";
        InvalidateModule themeDevId;
        WsSend "vanilla-extract-style-update:/app/src/theme.css.ts"
               ".a{color:blue}"].
Proof. vm_compute. repeat split; reflexivity. Qed.

(** Without the query the theme is left out, as the comment in [transform]
    intends. *)
Example transform_skips_itself :
  effects_of (transform compileBlue "" theme false devState)
  = [AddWatchFile "/app/src/vars.css.ts";
     InvalidateModule themeDevId;
     WsSend "vanilla-extract-style-update:/app/src/theme.css.ts"
            ".a{color:blue}"].
Proof. vm_compute. reflexivity. Qed.

(** In a build everything the compiler reports is watched. *)
Example transform_build_watches_all :
  effects_of (transform compileBlue "" theme false buildState)
  = [AddWatchFile theme; AddWatchFile "/app/src/vars.css.ts"].
Proof. vm_compute. reflexivity. Qed.

(** *** The further properties on the concrete project *)

(** A theorem at a concrete input, both sides evaluated. *)
Ltac at_instance W :=
  let H := fresh "W" in
  pose proof W as H; vm_compute in H; vm_compute; exact H.
Ltac run := vm_compute; reflexivity.

Lemma transform_ssr_tags_only_witness :
  transform compileFails "export const a = style({});" (theme +:+ "?used")
    true devState
  = (Ok (Some ("setFileScope(/app/src/theme.css.ts);"
                 +:+ "export const a = style({});")),
     devState, []).
Proof.
  at_instance (transform_ssr_tags_only compileFails
                 "export const a = style({});" (theme +:+ "?used") devState
                 ltac:(run)).
Defined.

Lemma transform_compile_error_witness :
  transform compileFails "" theme false devState
  = (Throw "Build failed with 1 error", devState, []).
Proof.
  at_instance (transform_compile_error compileFails "" theme
                 "Build failed with 1 error" devState ltac:(run) ltac:(run)).
Defined.

Lemma transform_without_server_witness :
  Forall isWatch (effects_of (transform compileBlue "" theme false buildState)).
Proof.
  apply (transform_without_server compileBlue "" theme false buildState).
  run.
Defined.

Lemma transform_watches_first_witness :
  exists messages,
    effects_of (transform compileBlue "" theme false devState)
    = (AddWatchFile <$> filter (fun file => file <> theme)
                               [theme; "/app/src/vars.css.ts"])
      ++ messages
    /\ Forall (fun e => ~ isWatch e) messages.
Proof.
  apply (transform_watches_first compileBlue "" theme devState blueTheme); run.
Defined.

Lemma transform_serve_skips_id_witness :
  (AddWatchFile theme ∉ effects_of (transform compileBlue "" theme false devState))
  /\ (Js.indexOf theme "?" = -1 ->
      AddWatchFile (validIdOf theme)
        ∉ effects_of (transform compileBlue "" theme false devState)).
Proof.
  apply (transform_serve_skips_id compileBlue "" theme false devState). run.
Defined.

Lemma layout_not_theme : layout ∉ fileIds (fragmentsOf twoFiles theme blueTheme).
Proof.
  change (layout ∉ [theme]).
  apply not_elem_of_cons. split; [discriminate | apply not_elem_of_nil].
Defined.

Lemma theme_alone (s : State) : NoDup (fileIds (fragmentsOf s theme blueTheme)).
Proof. change (NoDup [theme]). apply NoDup_singleton. Defined.

Lemma transform_keeps_other_scopes_witness :
  cssMap (state_of (transform compileBlue "" theme false twoFiles)) !! layout
  = cssMap twoFiles !! layout.
Proof.
  apply (transform_keeps_other_scopes compileBlue "" theme twoFiles blueTheme
           layout ltac:(run) ltac:(run) layout_not_theme).
Defined.

Lemma transform_registers_fragments_witness :
  cssMap (state_of (transform compileBlue "" theme false twoFiles)) !! theme
  = Some ".a{color:blue}".
Proof.
  apply (transform_registers_fragments (itg := integration) (rt := runtime)
           compileBlue "" theme twoFiles blueTheme theme ".a{color:blue}"
           ltac:(run) ltac:(run) (theme_alone twoFiles)).
  change ((theme, ".a{color:blue}") ∈ [(theme, ".a{color:blue}")]). left.
Defined.

(** The theme of the bundle project: three fragments, pairwise distinct. *)
Lemma bundle_distinct (s : State (H := Bundle.integration))
    (compiled : CompileResult) :
  fileIds (itg := Bundle.integration)
    (fragmentsOf (itg := Bundle.integration) s Bundle.theme compiled)
  = [Bundle.vars; Bundle.theme; Bundle.layout] ->
  NoDup (fileIds (itg := Bundle.integration)
           (fragmentsOf (itg := Bundle.integration) s Bundle.theme compiled)).
Proof.
  intros ->. repeat (apply NoDup_cons; split);
    [| |apply not_elem_of_nil|apply NoDup_nil_2];
    intros Hin;
    repeat (apply elem_of_cons in Hin as [[=]|Hin]); inversion Hin.
Defined.

Lemma transform_messages_witness :
  effects_of (transform (itg := Bundle.integration) (rt := Bundle.runtime)
                Bundle.compile3 "" Bundle.theme false Bundle.session)
  = (AddWatchFile <$> [Bundle.vars; Bundle.layout])
    ++ flat_map (fun fragment : string * string =>
                   effects_of
                     (serializeVirtualCssPath (itg := Bundle.integration)
                        fragment.1 fragment.2 Bundle.session))
                [(Bundle.vars, ":root{--c:blue}");
                 (Bundle.theme, ".a{color:blue}");
                 (Bundle.layout, ".l{margin:0}")].
Proof.
  at_instance (transform_messages (itg := Bundle.integration)
                 (rt := Bundle.runtime) Bundle.compile3 "" Bundle.theme
                 Bundle.session Bundle.version3 ltac:(run) ltac:(run)
                 (bundle_distinct Bundle.session Bundle.version3 ltac:(run))).
Defined.

(** The third version on the bundle: the variables and the theme are both
    announced, each judged against the registry of the first version. *)
Example bundle_two_changes :
  effects_of (transform (itg := Bundle.integration) (rt := Bundle.runtime)
                Bundle.compile3 "" Bundle.theme false Bundle.session)
  = [AddWatchFile Bundle.vars; AddWatchFile Bundle.layout;
     InvalidateModule "virtual:vanilla-extract:/app/src/vars.css.ts.vanilla.js";
     WsSend "vanilla-extract-style-update:/app/src/vars.css.ts"
            ":root{--c:blue}";
     InvalidateModule "virtual:vanilla-extract:/app/src/theme.css.ts.vanilla.js";
     WsSend "vanilla-extract-style-update:/app/src/theme.css.ts"
            ".a{color:blue}"].
Proof. vm_compute. reflexivity. Qed.

Lemma transform_again_silent_witness :
  transform compileBlue "" theme false
    (state_of (transform compileBlue "" theme false devState))
  = (result_of (transform compileBlue "" theme false devState),
     state_of (transform compileBlue "" theme false devState),
     AddWatchFile <$> filter (fun file => watched devState theme file = true)
                             [theme; "/app/src/vars.css.ts"]).
Proof.
  apply (transform_again_silent compileBlue "" "" theme devState blueTheme
           ltac:(run) ltac:(run) (theme_alone devState)).
Defined.

Lemma transform_effect_kinds_witness :
  (exists file,
     file ∈ watchFiles blueTheme
     /\ WsSend (styleUpdateEvent theme) ".a{color:blue}" = AddWatchFile file)
  \/ exists (fileScope : FileScope) css srv,
       (fileScope, css) ∈ fragmentsOf devState theme blueTheme
       /\ server devState = Some srv
       /\ (WsSend (styleUpdateEvent theme) ".a{color:blue}"
           = WsSend (styleUpdateEvent (stringifyFileScope fileScope)) css
           \/ (WsSend (styleUpdateEvent theme) ".a{color:blue}"
               = InvalidateModule
                   (virtualCssId devState (stringifyFileScope fileScope))
               /\ virtualCssId devState (stringifyFileScope fileScope)
                    ∈ moduleGraph srv)).
Proof.
  apply (transform_effect_kinds compileBlue "" theme devState blueTheme
           (WsSend (styleUpdateEvent theme) ".a{color:blue}")
           ltac:(run) ltac:(run)).
  change (WsSend (styleUpdateEvent theme) ".a{color:blue}"
          ∈ [AddWatchFile "/app/src/vars.css.ts";
             InvalidateModule themeDevId;
             WsSend (styleUpdateEvent theme) ".a{color:blue}"]).
  right. right. left.
Defined.


Lemma load_only_lookup_error_witness :
  cssMap devState
    !! fileScopeIdOf devState "virtual:vanilla-extract:/app/src/gone.css.ts.vanilla.js"
  = None
  /\ "Unable to locate /app/src/gone.css.ts in the CSS map."
     = "Unable to locate "
         +:+ fileScopeIdOf devState
               "virtual:vanilla-extract:/app/src/gone.css.ts.vanilla.js"
         +:+ " in the CSS map.".
Proof.
  apply (load_only_lookup_error None devConfig devSession
           "virtual:vanilla-extract:/app/src/gone.css.ts.vanilla.js"
           "Unable to locate /app/src/gone.css.ts in the CSS map.").
  run.
Defined.

Lemma registry_keys_are_scope_ids_witness :
  exists fileScope : FileScope, stringifyFileScope fileScope = theme.
Proof.
  apply (registry_keys_are_scope_ids None devConfig devSession theme
           ".a{color:red}").
  run.
Defined.

Lemma transform_one_change_witness :
  effects_of (transform (itg := Bundle.integration) (rt := Bundle.runtime)
                Bundle.compile2 "" Bundle.theme false Bundle.session)
  = [AddWatchFile Bundle.vars; AddWatchFile Bundle.layout;
     InvalidateModule "virtual:vanilla-extract:/app/src/theme.css.ts.vanilla.js";
     WsSend "vanilla-extract-style-update:/app/src/theme.css.ts"
            ".a{color:blue}"].
Proof.
  at_instance (transform_one_change (itg := Bundle.integration)
                 (rt := Bundle.runtime) Bundle.compile2 "" Bundle.theme
                 Bundle.session Bundle.version2
                 [(Bundle.vars, ":root{--c:red}")]
                 [(Bundle.layout, ".l{margin:0}")]
                 Bundle.theme ".a{color:blue}" ".a{color:red}"
                 ltac:(run) ltac:(run) ltac:(run)
                 (bundle_distinct Bundle.session Bundle.version2 ltac:(run))
                 ltac:(intros fileScope' css' Hin;
                       repeat (apply elem_of_cons in Hin as [[= -> ->]|Hin]);
                       [run | run | inversion Hin])
                 ltac:(exists Bundle.devServer; run)
                 ltac:(run) ltac:(discriminate)).
Defined.

(** A scope id that holds the extension is cut short by [load]. *)
Example scope_id_with_extension :
  fileScopeIdOf buildState
    (virtualCssId buildState "/app/a.vanilla.css/b.css.ts")
  = "/app/a".
Proof. vm_compute. reflexivity. Qed.

(** C2 on the code.  In a dev session the style file [it's.css.ts] is
    compiled and its virtual module is loaded.  The scope id is in the
    registry and [load] returns the shim; in it the literal that opens the
    subscription closes at the apostrophe of the file name, reads as
    [vanilla-extract-style-update:/app/src/it], and is followed by
    [s.css.ts'] where the call needs a comma: the module holds no
    well-formed subscription. *)
Theorem load_shim_apostrophe :
  resolveId itsDevId = Some itsDevId
  /\ cssMap itsState !! fileScopeIdOf itsState itsDevId = Some ".a{color:red}"
  /\ is_Some (server itsState)
  /\ exists tail,
       load itsDevId itsState
       = Ok (Some (shimHead (JSON_stringify_scope (its : FileScope))
                     (JSON_stringify ".a{color:red}")
                     +:+ "import.meta.hot.on('" +:+ tail))
       /\ JsLiteral.readSingleQuoted tail
          = Some ("vanilla-extract-style-update:/app/src/it",
                  "s.css.ts', (css) => {" +:+ nl
                    +:+ "  inject(css);" +:+ nl +:+ "});   ").
Proof.
  split; [run|]. split; [run|]. split; [exists devServer; run|].
  eexists. split; vm_compute; reflexivity.
Qed.

(** C6 on the code.  For the scope of [it's.css.ts] a recompile that changes
    the CSS broadcasts on [vanilla-extract-style-update:/app/src/it's.css.ts],
    while the subscription in the shim [load] returns for that scope is
    written with a literal that reads as another name,
    [vanilla-extract-style-update:/app/src/it]. *)
Theorem styleUpdateEvent_apostrophe :
  effects_of (serializeVirtualCssPath (its : FileScope) ".a{color:blue}" itsState)
  = [WsSend "vanilla-extract-style-update:/app/src/it's.css.ts"
            ".a{color:blue}"]
  /\ exists head tail value rest,
       load itsDevId itsState
       = Ok (Some (head +:+ "import.meta.hot.on('" +:+ tail))
       /\ head = shimHead (JSON_stringify_scope (its : FileScope))
                   (JSON_stringify ".a{color:red}")
       /\ JsLiteral.readSingleQuoted tail = Some (value, rest)
       /\ value = "vanilla-extract-style-update:/app/src/it"
       /\ value <> "vanilla-extract-style-update:/app/src/it's.css.ts".
Proof.
  split; [run|].
  exists (shimHead (JSON_stringify_scope (H := integration) its)
            (JSON_stringify ".a{color:red}")).
  eexists. exists "vanilla-extract-style-update:/app/src/it". eexists.
  split; [vm_compute; reflexivity|].
  split; [reflexivity|].
  split; [vm_compute; reflexivity|].
  split; [reflexivity | discriminate].
Qed.
